(** * PocketWise expense tracker: the [ExpenseTracker] component

    A shallow embedding of [src/components/ExpenseTracker.tsx]: the record
    store kept in the [expenses] hook, its mirror in [localStorage], the
    running total and the three export routines, followed by the properties
    the specification states about them.

    The component is event driven and single threaded; every handler runs to
    completion.  A handler is modelled as a function on a [World] that holds
    the hook values, the browser's [localStorage], and the log of what the
    handler sent to the outside (toasts, files offered for download,
    exceptions that nothing caught).

    Strings are byte strings holding UTF-8 text.  A JavaScript [number] is an
    IEEE-754 binary64 value, taken from the Standard Library's [SpecFloat]
    with [prec = 53] and [emax = 1024]. *)

From Stdlib Require Import ZArith List Ascii String Lia.
From Stdlib Require Import Floats.SpecFloat.
From Stdlib Require Import DecimalString DecimalZ.
From stdpp Require Import gmap strings list.
Import ListNotations.

Local Open Scope Z_scope.

(** ** The ECMAScript built-ins the component calls *)

Module JS.

(** *** Numbers *)

Definition prec : Z := 53.
Definition emax : Z := 1024.

Definition number : Type := spec_float.

Definition NaN : number := S754_nan.
Definition zero : number := S754_zero false.

(** [x + y] on numbers: IEEE addition, round to nearest, ties to even. *)
Definition add (x y : number) : number := SFadd prec emax x y.

(** The number nearest to the real [a / b] ([0 <= a], [0 < b]), negated when
    [neg]; this is the rounding of a mathematical value to a Number. *)
Definition round_ratio (neg : bool) (a b : Z) : number :=
  match a with
  | Z0 => S754_zero neg
  | _ =>
      let '(mz, ez, lz) := SFdiv_core_binary prec emax a 0 b 0 in
      binary_round_aux prec emax neg mz ez lz
  end.

(** The exact value [m * 2^e] of a finite number, as a fraction. *)
Definition ratio (m : positive) (e : Z) : Z * Z :=
  if 0 <=? e then (Z.pos m * 2 ^ e, 1) else (Z.pos m, 2 ^ (- e)).

(** Decimal numerals of integers. *)
Definition decimal (z : Z) : string := NilZero.string_of_int (Z.to_int z).

Definition digit_value (c : ascii) : option Z :=
  let n := Z.of_N (N_of_ascii c) in
  if (48 <=? n) && (n <=? 57) then Some (n - 48) else None.

Definition is_digit (c : ascii) : bool :=
  match digit_value c with Some _ => true | None => false end.

(** Reads the longest run of decimal digits: its value, its length and what
    follows it. *)
Fixpoint read_digits (acc : Z) (len : Z) (cs : list ascii) : Z * Z * list ascii :=
  match cs with
  | c :: cs' =>
      match digit_value c with
      | Some d => read_digits (10 * acc + d) (len + 1) cs'
      | None => (acc, len, cs)
      end
  | [] => (acc, len, cs)
  end.

Definition count_digits (z : Z) : Z := Z.of_nat (String.length (decimal z)).

(** The number denoted by the decimal [m * 10^e10], [0 <= m].  Values that
    are out of the range of the format by their magnitude alone are settled
    without computing the power. *)
Definition of_decimal (neg : bool) (m e10 : Z) : number :=
  if m =? 0 then S754_zero neg
  else if 400 <? count_digits m + e10 then S754_infinity neg
  else if count_digits m + e10 <? -400 then S754_zero neg
  else if 0 <=? e10 then round_ratio neg (m * 10 ^ e10) 1
  else round_ratio neg m (10 ^ (- e10)).

(** An exponent part [e|E, sign, digits] at the head of [cs], if there is a
    complete one. *)
Definition exponent_part (cs : list ascii) : option (Z * list ascii) :=
  match cs with
  | c :: cs1 =>
      if (Ascii.eqb c "e" || Ascii.eqb c "E")%bool then
        let '(sg, cs2) :=
          match cs1 with
          | s :: r => if Ascii.eqb s "-" then (true, r)
                      else if Ascii.eqb s "+" then (false, r)
                      else (false, cs1)
          | [] => (false, cs1)
          end in
        let '(v, len, rest) := read_digits 0 0 cs2 in
        if len =? 0 then None else Some ((if sg then - v else v), rest)
      else None
  | [] => None
  end.

Definition number_eqb (x y : number) : bool :=
  match x, y with
  | S754_zero a, S754_zero b => Bool.eqb a b
  | S754_infinity a, S754_infinity b => Bool.eqb a b
  | S754_nan, S754_nan => true
  | S754_finite a m e, S754_finite b m' e' =>
      Bool.eqb a b && (m =? m')%positive && (e =? e')
  | _, _ => false
  end.

(** [Number::toString].  For a positive finite [x = num / den] the standard asks
    for integers [n], [k], [s] with [10^(k-1) <= s < 10^k], [s * 10^(n-k)]
    rounding to [x], [k] as small as possible and, among those, [s] nearest to
    [x].  [decimal_exponent] is the [n] with [10^(n-1) <= x < 10^n]. *)
Definition decimal_exponent (num den : Z) : Z :=
  if den <=? num then count_digits (num / den)
  else 1 - count_digits ((den + num - 1) / num - 1).

(** The two [k]-digit candidates around [x], the nearer one first (the even
    one first on a tie). *)
Definition candidates (num den nx k : Z) : Z * Z :=
  let p := k - nx in
  let a := if 0 <=? p then num * 10 ^ p else num in
  let b := if 0 <=? p then den else den * 10 ^ (- p) in
  let lo := a / b in
  let r := a mod b in
  match 2 * r ?= b with
  | Lt => (lo, lo + 1)
  | Gt => (lo + 1, lo)
  | Eq => if Z.even lo then (lo, lo + 1) else (lo + 1, lo)
  end.

Fixpoint shortest (fuel : nat) (x : number) (num den nx k : Z) : Z * Z :=
  let '(c1, c2) := candidates num den nx k in
  match fuel with
  | O => (c1, k)
  | S fuel' =>
      if number_eqb (of_decimal false c1 (nx - k)) x then (c1, k)
      else if number_eqb (of_decimal false c2 (nx - k)) x then (c2, k)
      else shortest fuel' x num den nx (k + 1)
  end.

Definition zeros (n : Z) : string := string_of_list_ascii (repeat "0"%char (Z.to_nat n)).

Definition substr (from len : Z) (s : string) : string :=
  String.substring (Z.to_nat from) (Z.to_nat len) s.

Definition format_digits (ds : string) (k n : Z) : string :=
  if (k <=? n) && (n <=? 21) then ds +:+ zeros (n - k)
  else if (0 <? n) && (n <=? 21) then substr 0 n ds +:+ "." +:+ substr n (k - n) ds
  else if (-6 <? n) && (n <=? 0) then "0." +:+ zeros (- n) +:+ ds
  else
    let e := n - 1 in
    let sg := if e <? 0 then "-" else "+" in
    if k =? 1 then ds +:+ "e" +:+ sg +:+ decimal (Z.abs e)
    else substr 0 1 ds +:+ "." +:+ substr 1 (k - 1) ds +:+ "e" +:+ sg +:+ decimal (Z.abs e).

Definition Number_toString (x : number) : string :=
  match x with
  | S754_nan => "NaN"
  | S754_zero _ => "0"
  | S754_infinity s => if s then "-Infinity" else "Infinity"
  | S754_finite s m e =>
      let '(num, den) := ratio m e in
      let nx := decimal_exponent num den in
      let '(c, k) := shortest 16 (S754_finite false m e) num den nx 1 in
      let '(c, n) := if c =? 10 ^ k then (1, nx + 1) else (c, nx) in
      let ds := decimal c in
      (if s then "-" else "") +:+ format_digits ds (count_digits c) n
  end.

(** [Number.prototype.toFixed(f)], [0 <= f <= 100]. *)
Definition fixed_digits (f n : Z) : string :=
  let m := decimal n in
  if f =? 0 then m
  else
    let k := Z.of_nat (String.length m) in
    let m := if k <=? f then zeros (f + 1 - k) +:+ m else m in
    let k := if k <=? f then f + 1 else k in
    substr 0 (k - f) m +:+ "." +:+ substr (k - f) f m.

Definition toFixed (f : Z) (x : number) : string :=
  match x with
  | S754_nan | S754_infinity _ => Number_toString x
  | S754_zero _ => fixed_digits f 0
  | S754_finite s m e =>
      let '(num, den) := ratio m e in
      if 10 ^ 21 * den <=? num then Number_toString x
      else
        let n := (2 * num * 10 ^ f + den) / (2 * den) in
        (if s then "-" else "") +:+ fixed_digits f n
  end.

(** *** [parseFloat] *)

Definition byte (c : ascii) : Z := Z.of_N (N_of_ascii c).

(** Leading white space and line terminators ([TrimString] at the start),
    read off the UTF-8 text. *)
Definition ws3 (a b c : Z) : bool :=
  ((a =? 225) && (b =? 154) && (c =? 128))
  || ((a =? 226) && (b =? 128)
      && (((128 <=? c) && (c <=? 138)) || (c =? 168) || (c =? 169) || (c =? 175)))
  || ((a =? 226) && (b =? 129) && (c =? 159))
  || ((a =? 227) && (b =? 128) && (c =? 128))
  || ((a =? 239) && (b =? 187) && (c =? 191)).

Fixpoint skip_whitespace (cs : list ascii) : list ascii :=
  match cs with
  | a :: r =>
      if ((9 <=? byte a) && (byte a <=? 13)) || (byte a =? 32) then skip_whitespace r
      else
        match r with
        | b :: r2 =>
            if (byte a =? 194) && (byte b =? 160) then skip_whitespace r2
            else
              match r2 with
              | c :: r3 => if ws3 (byte a) (byte b) (byte c) then skip_whitespace r3 else cs
              | [] => cs
              end
        | [] => cs
        end
  | [] => cs
  end.

Fixpoint starts_with (p cs : list ascii) : bool :=
  match p, cs with
  | [], _ => true
  | a :: p', b :: cs' => Ascii.eqb a b && starts_with p' cs'
  | _ :: _, [] => false
  end.

Definition read_sign (cs : list ascii) : bool * list ascii :=
  match cs with
  | c :: r =>
      if Ascii.eqb c "-" then (true, r)
      else if Ascii.eqb c "+" then (false, r)
      else (false, cs)
  | [] => (false, cs)
  end.

(** [parseFloat(string)]: the longest prefix of the trimmed text that is a
    decimal literal, or [NaN] when there is none. *)
Definition parseFloat (s : string) : number :=
  let '(neg, cs1) := read_sign (skip_whitespace (list_ascii_of_string s)) in
  if starts_with (list_ascii_of_string "Infinity") cs1 then S754_infinity neg
  else
    let '(ip, ilen, cs2) := read_digits 0 0 cs1 in
    let '(m, flen, cs3) :=
      match cs2 with
      | c :: r => if Ascii.eqb c "." then read_digits ip 0 r else (ip, 0, cs2)
      | [] => (ip, 0, cs2)
      end in
    if (ilen =? 0) && (flen =? 0) then NaN
    else
      match exponent_part cs3 with
      | Some (ex, _) => of_decimal neg m (ex - flen)
      | None => of_decimal neg m (- flen)
      end.

(** *** JSON *)

#[warnings="-register-all"]
Inductive json : Type :=
  | JNull
  | JBool (b : bool)
  | JNumber (x : number)
  | JString (s : string)
  | JArray (elements : list json)
  | JObject (members : list (string * json)).

Definition join (sep : string) (l : list string) : string :=
  match l with
  | [] => ""
  | x :: r => fold_left (fun acc y => acc +:+ sep +:+ y) r x
  end.

Definition hex_digit (n : Z) : ascii :=
  ascii_of_N (Z.to_N (if n <? 10 then 48 + n else 87 + n)).

Definition dquote : string := String (ascii_of_N 34) EmptyString.

(** [QuoteJSONString]: the text between double quotes, with the quote, the
    backslash and the control characters escaped. *)
Fixpoint quote_chars (s : string) : string :=
  match s with
  | EmptyString => ""
  | String c r =>
      let n := byte c in
      (if n =? 34 then "\" +:+ dquote
       else if n =? 92 then "\\"
       else if n =? 8 then "\b"
       else if n =? 12 then "\f"
       else if n =? 10 then "\n"
       else if n =? 13 then "\r"
       else if n =? 9 then "\t"
       else if n <? 32 then
         "\u00" +:+ String (hex_digit (n / 16)) (String (hex_digit (n mod 16)) "")
       else String c "") +:+ quote_chars r
  end.

Definition quote (s : string) : string := dquote +:+ quote_chars s +:+ dquote.

(** [JSON.stringify(value)] without indentation. *)
Fixpoint JSON_stringify (v : json) : string :=
  match v with
  | JNull => "null"
  | JBool b => if b then "true" else "false"
  | JNumber x =>
      match x with
      | S754_nan | S754_infinity _ => "null"
      | _ => Number_toString x
      end
  | JString s => quote s
  | JArray l => "[" +:+ join "," (map JSON_stringify l) +:+ "]"
  | JObject ms =>
      "{" +:+ join "," (map (fun kv => quote (fst kv) +:+ ":" +:+ JSON_stringify (snd kv)) ms)
      +:+ "}"
  end.

(** [JSON.parse(text)].  [None] stands for the [SyntaxError] it throws. *)

Fixpoint skip_ws (cs : list ascii) : list ascii :=
  match cs with
  | c :: r =>
      if (byte c =? 32) || (byte c =? 9) || (byte c =? 10) || (byte c =? 13)
      then skip_ws r else cs
  | [] => cs
  end.

Definition hex_value (c : ascii) : option Z :=
  let n := byte c in
  if (48 <=? n) && (n <=? 57) then Some (n - 48)
  else if (97 <=? n) && (n <=? 102) then Some (n - 87)
  else if (65 <=? n) && (n <=? 70) then Some (n - 55)
  else None.

Definition hex4 (a b c d : ascii) : option Z :=
  match hex_value a, hex_value b, hex_value c, hex_value d with
  | Some x, Some y, Some z, Some w => Some (((x * 16 + y) * 16 + z) * 16 + w)
  | _, _, _, _ => None
  end.

Definition chr (n : Z) : ascii := ascii_of_N (Z.to_N n).

(** The UTF-8 bytes of a code point, most significant first. *)
Definition utf8 (cp : Z) : list ascii :=
  if cp <? 128 then [chr cp]
  else if cp <? 2048 then [chr (192 + cp / 64); chr (128 + cp mod 64)]
  else if cp <? 65536 then
    [chr (224 + cp / 4096); chr (128 + (cp / 64) mod 64); chr (128 + cp mod 64)]
  else
    [chr (240 + cp / 262144); chr (128 + (cp / 4096) mod 64);
     chr (128 + (cp / 64) mod 64); chr (128 + cp mod 64)].

Definition simple_escape (c : ascii) : option ascii :=
  let n := byte c in
  if n =? 34 then Some c            (* quote *)
  else if n =? 92 then Some c       (* backslash *)
  else if n =? 47 then Some c       (* solidus *)
  else if n =? 98 then Some (chr 8)
  else if n =? 102 then Some (chr 12)
  else if n =? 110 then Some (chr 10)
  else if n =? 114 then Some (chr 13)
  else if n =? 116 then Some (chr 9)
  else None.

(** The characters of a string literal after its opening quote, up to the
    closing one; [acc] holds what was read, last character first.  A
    [\uXXXX] pair of surrogates is one code point. *)
Fixpoint read_string (acc : list ascii) (cs : list ascii) : option (string * list ascii) :=
  match cs with
  | [] => None
  | c :: r =>
      if byte c =? 34 then Some (string_of_list_ascii (rev acc), r)
      else if byte c <? 32 then None
      else if byte c =? 92 then
        match r with
        | e :: r1 =>
            if byte e =? 117 then
              match r1 with
              | h1 :: h2 :: h3 :: h4 :: r5 =>
                  match hex4 h1 h2 h3 h4 with
                  | Some hi =>
                      match r5 with
                      | b :: u :: l1 :: l2 :: l3 :: l4 :: r11 =>
                          match hex4 l1 l2 l3 l4 with
                          | Some lo =>
                              if (byte b =? 92) && (byte u =? 117)
                                 && (55296 <=? hi) && (hi <=? 56319)
                                 && (56320 <=? lo) && (lo <=? 57343)
                              then
                                read_string
                                  (rev (utf8 (65536 + (hi - 55296) * 1024 + (lo - 56320))) ++ acc)
                                  r11
                              else read_string (rev (utf8 hi) ++ acc) r5
                          | None => read_string (rev (utf8 hi) ++ acc) r5
                          end
                      | _ => read_string (rev (utf8 hi) ++ acc) r5
                      end
                  | None => None
                  end
              | _ => None
              end
            else
              match simple_escape e with
              | Some x => read_string (x :: acc) r1
              | None => None
              end
        | [] => None
        end
      else read_string (c :: acc) r
  end.

(** A number literal: [-]? int frac? exp?, with no leading zero in [int] and
    at least one digit after the point and after the exponent mark. *)
Definition read_number (cs : list ascii) : option (number * list ascii) :=
  let '(neg, cs1) :=
    match cs with
    | c :: r => if byte c =? 45 then (true, r) else (false, cs)
    | [] => (false, cs)
    end in
  let int_part :=
    match cs1 with
    | c :: r =>
        if byte c =? 48 then Some (0, r)
        else if is_digit c then
          let '(v, _, rest) := read_digits 0 0 cs1 in Some (v, rest)
        else None
    | [] => None
    end in
  match int_part with
  | None => None
  | Some (ip, cs2) =>
      let frac :=
        match cs2 with
        | c :: r =>
            if byte c =? 46 then
              let '(v, len, rest) := read_digits ip 0 r in
              if len =? 0 then None else Some (v, len, rest)
            else Some (ip, 0, cs2)
        | [] => Some (ip, 0, cs2)
        end in
      match frac with
      | None => None
      | Some (m, flen, cs3) =>
          match cs3 with
          | c :: r =>
              if (byte c =? 101) || (byte c =? 69) then
                match exponent_part cs3 with
                | Some (ex, rest) => Some (of_decimal neg m (ex - flen), rest)
                | None => None
                end
              else Some (of_decimal neg m (- flen), cs3)
          | [] => Some (of_decimal neg m (- flen), cs3)
          end
      end
  end.

(** Sets member [k] of an object under construction: a repeated name keeps
    its place and takes the later value. *)
Fixpoint set_member (k : string) (v : json) (ms : list (string * json)) : list (string * json) :=
  match ms with
  | [] => [(k, v)]
  | (k', v') :: r => if String.eqb k k' then (k, v) :: r else (k', v') :: set_member k v r
  end.

Fixpoint read_value (fuel : nat) (cs : list ascii) : option (json * list ascii) :=
  match fuel with
  | O => None
  | S fuel' =>
      match cs with
      | [] => None
      | c :: r =>
          if starts_with (list_ascii_of_string "null") cs then Some (JNull, skipn 4 cs)
          else if starts_with (list_ascii_of_string "true") cs then Some (JBool true, skipn 4 cs)
          else if starts_with (list_ascii_of_string "false") cs then Some (JBool false, skipn 5 cs)
          else if byte c =? 34 then
            match read_string [] r with
            | Some (s, rest) => Some (JString s, rest)
            | None => None
            end
          else if byte c =? 91 then
            match skip_ws r with
            | c1 :: r1 =>
                if byte c1 =? 93 then Some (JArray [], r1)
                else
                  (fix elements (n : nat) (acc : list json) (cs : list ascii)
                     : option (json * list ascii) :=
                     match n with
                     | O => None
                     | S n' =>
                         match read_value fuel' cs with
                         | Some (v, rest) =>
                             match skip_ws rest with
                             | d :: rest' =>
                                 if byte d =? 44 then elements n' (v :: acc) (skip_ws rest')
                                 else if byte d =? 93 then Some (JArray (rev (v :: acc)), rest')
                                 else None
                             | [] => None
                             end
                         | None => None
                         end
                     end) fuel' [] (c1 :: r1)
            | [] => None
            end
          else if byte c =? 123 then
            match skip_ws r with
            | c1 :: r1 =>
                if byte c1 =? 125 then Some (JObject [], r1)
                else
                  (fix members (n : nat) (acc : list (string * json)) (cs : list ascii)
                     : option (json * list ascii) :=
                     match n with
                     | O => None
                     | S n' =>
                         match cs with
                         | q :: cs1 =>
                             if byte q =? 34 then
                               match read_string [] cs1 with
                               | Some (k, rest) =>
                                   match skip_ws rest with
                                   | col :: rest1 =>
                                       if byte col =? 58 then
                                         match read_value fuel' (skip_ws rest1) with
                                         | Some (v, rest2) =>
                                             match skip_ws rest2 with
                                             | d :: rest3 =>
                                                 if byte d =? 44
                                                 then members n' (set_member k v acc) (skip_ws rest3)
                                                 else if byte d =? 125
                                                 then Some (JObject (set_member k v acc), rest3)
                                                 else None
                                             | [] => None
                                             end
                                         | None => None
                                         end
                                       else None
                                   | [] => None
                                   end
                               | None => None
                               end
                             else None
                         | [] => None
                         end
                     end) fuel' [] (c1 :: r1)
            | [] => None
            end
          else
            match read_number cs with
            | Some (x, rest) => Some (JNumber x, rest)
            | None => None
            end
      end
  end.

Definition JSON_parse (text : string) : option json :=
  let cs := skip_ws (list_ascii_of_string text) in
  match read_value (S (length cs)) cs with
  | Some (v, rest) =>
      match skip_ws rest with
      | [] => Some v
      | _ :: _ => None
      end
  | None => None
  end.

(** *** Strings *)

(** [s.length]: the number of UTF-16 code units of [s].  Read off the UTF-8
    text: a byte that starts a character counts one, or two when the
    character lies outside the Basic Multilingual Plane (four bytes), and a
    continuation byte counts nothing. *)
Fixpoint String_length (s : string) : Z :=
  match s with
  | EmptyString => 0
  | String c r =>
      (if (128 <=? byte c) && (byte c <? 192) then 0
       else if 240 <=? byte c then 2
       else 1)
      + String_length r
  end.

(** [isFinite(x)] on a number. *)
Definition isFinite (x : number) : bool :=
  match x with
  | S754_nan | S754_infinity _ => false
  | _ => true
  end.

End JS.

Import JS.

(** ** The controls of the browser *)

(** A valid floating-point number of the HTML Standard: an optional minus
    sign; digits, or a point followed by digits, or both in that order; then
    optionally an exponent: [e] or [E], an optional sign, digits. *)
Definition valid_floating_point_number (s : string) : bool :=
  let cs := list_ascii_of_string s in
  let cs1 :=
    match cs with
    | c :: r => if byte c =? 45 then r else cs
    | [] => cs
    end in
  let '(_, ilen, cs2) := read_digits 0 0 cs1 in
  let frac :=
    match cs2 with
    | c :: r =>
        if byte c =? 46 then
          let '(_, flen, cs3) := read_digits 0 0 r in
          if flen =? 0 then None else Some (flen, cs3)
        else Some (0, cs2)
    | [] => Some (0, cs2)
    end in
  match frac with
  | None => false
  | Some (flen, cs3) =>
      if (ilen =? 0) && (flen =? 0) then false
      else
        match cs3 with
        | [] => true
        | c :: r =>
            if (byte c =? 101) || (byte c =? 69) then
              let r' :=
                match r with
                | sg :: r2 => if (byte sg =? 45) || (byte sg =? 43) then r2 else r
                | [] => r
                end in
              let '(_, elen, rest) := read_digits 0 0 r' in
              negb (elen =? 0) && match rest with [] => true | _ :: _ => false end
            else false
        end
  end.

(** Text that an [<input type="number">] takes for a number: a valid
    floating-point number whose value is in range. *)
Definition numeric (typed : string) : bool :=
  valid_floating_point_number typed && isFinite (parseFloat typed).

(** [e.target.value] of an [<input type="number">] that holds the text
    [typed]: the value sanitization algorithm of the control leaves a number
    as it was typed and puts the empty string in the place of anything
    else. *)
Definition number_input_value (typed : string) : string :=
  if numeric typed then typed else "".

(** ** Data model *)

(** [interface Expense]. *)
Record Expense : Type := mkExpense {
  id : string;
  amount : number;
  description : string;
  category : string;
  date : string
}.

Record Category : Type := mkCategory {
  value : string;
  label : string;
  color : string
}.

Definition categories : list Category :=
  [ mkCategory "food" "Food & Dining" "category-food";
    mkCategory "transport" "Transportation" "category-transport";
    mkCategory "entertainment" "Entertainment" "category-entertainment";
    mkCategory "shopping" "Shopping" "category-shopping";
    mkCategory "utilities" "Bills & Utilities" "category-utilities";
    mkCategory "healthcare" "Healthcare" "category-healthcare";
    mkCategory "other" "Other" "category-other" ].

(** A string is falsy exactly when it is empty. *)
Definition truthy (s : string) : bool := negb (String.eqb s "").

(** [a?.label || b] on an optional string: [b] replaces a missing or empty
    left operand. *)
Definition or_else (a : option string) (b : string) : string :=
  match a with
  | Some s => if truthy s then s else b
  | None => b
  end.

(** [categories.find(c => c.value === code)?.label || code]. *)
Definition category_label (code : string) : string :=
  or_else (option_map label (List.find (fun c => String.eqb (value c) code) categories)) code.

(** The [Expense[]] held in the store, as the JSON value that
    [JSON.stringify] walks: members in the order [addExpense] writes them. *)
Definition json_of_expense (e : Expense) : json :=
  JObject [ ("id", JString (id e));
            ("amount", JNumber (amount e));
            ("description", JString (description e));
            ("category", JString (category e));
            ("date", JString (date e)) ].

Definition json_of_expenses (l : list Expense) : json :=
  JArray (map json_of_expense l).

(** The typed reading of a parsed value: an object with the five members of
    an [Expense], in the order [addExpense] writes them and with values of
    their types, as [JSON.stringify] writes a record of the store.
    TypeScript's [Expense[]] is not checked when the program runs; a value
    of any other shape has no reading here. *)
Definition expense_of_json (v : json) : option Expense :=
  match v with
  | JObject [ (k1, JString i); (k2, JNumber a); (k3, JString d);
              (k4, JString c); (k5, JString t) ] =>
      if String.eqb k1 "id" && String.eqb k2 "amount" && String.eqb k3 "description"
         && String.eqb k4 "category" && String.eqb k5 "date"
      then Some (mkExpense i a d c t)
      else None
  | _ => None
  end.

Fixpoint expenses_of_elements (l : list json) : option (list Expense) :=
  match l with
  | [] => Some []
  | v :: r =>
      match expense_of_json v, expenses_of_elements r with
      | Some e, Some es => Some (e :: es)
      | _, _ => None
      end
  end.

Definition expenses_of_json (v : json) : option (list Expense) :=
  match v with
  | JArray l => expenses_of_elements l
  | _ => None
  end.

(** ** The component and its surroundings *)

(** The four [useState] hooks. *)
Record State : Type := mkState {
  expenses : list Expense;
  form_amount : string;
  form_description : string;
  form_category : string
}.

(** What [sonner] is asked to show. *)
Inductive toast : Type :=
  | toast_success (message : string)
  | toast_error (message : string).

(** Worksheets of the [xlsx] library: rows of cells, the first row holding
    the column names; a workbook lists its sheets by name, in order. *)
Definition worksheet : Type := list (list (option string)).
Definition workbook : Type := list (string * worksheet).

(** What a [jsPDF] document was asked to draw. *)
Inductive pdf_op : Type :=
  | SetFontSize (size : Z)
  | Text (text : string) (x y : Z)
  | AutoTable (head body : list (list string)) (startY : Z).

(** Files handed to the browser to be saved. *)
Inductive file : Type :=
  | BlobFile (download type content : string)
  | XlsxFile (filename : string) (wb : workbook)
  | PdfFile (filename : string) (doc : list pdf_op).

(** The hooks, the browser's [localStorage], what was sent out so far, the
    exceptions that left a handler with nothing to catch them, and whether
    [setExpenses] was called since the last render (the effect that depends
    on [expenses] is then due: every call passes a fresh array). *)
Inductive exception : Type :=
  | SyntaxError
  | Error (message : string).

Record World : Type := mkWorld {
  state : State;
  localStorage : gmap string string;
  toasts : list toast;
  files : list file;
  uncaught : list exception;
  expenses_set : bool
}.

Definition action : Type := World -> World.

Definition seq (a b : action) : action := fun w => b (a w).
Declare Scope action_scope.
Delimit Scope action_scope with action.
Bind Scope action_scope with action.
Notation "a ;; b" := (seq a b)
  (at level 100, b at level 200, right associativity) : action_scope.

Definition with_state (f : State -> State) : action := fun w =>
  mkWorld (f (state w)) (localStorage w) (toasts w) (files w) (uncaught w) (expenses_set w).

Definition setExpenses (l : list Expense) : action := fun w =>
  mkWorld (mkState l (form_amount (state w)) (form_description (state w))
             (form_category (state w)))
          (localStorage w) (toasts w) (files w) (uncaught w) true.

Definition setAmount (s : string) : action :=
  with_state (fun st => mkState (expenses st) s (form_description st) (form_category st)).

Definition setDescription (s : string) : action :=
  with_state (fun st => mkState (expenses st) (form_amount st) s (form_category st)).

Definition setCategory (s : string) : action :=
  with_state (fun st => mkState (expenses st) (form_amount st) (form_description st) s).

Definition show (t : toast) : action := fun w =>
  mkWorld (state w) (localStorage w) (toasts w ++ [t]) (files w) (uncaught w) (expenses_set w).

Definition save_file (f : file) : action := fun w =>
  mkWorld (state w) (localStorage w) (toasts w) (files w ++ [f]) (uncaught w) (expenses_set w).

(** [throw e] in a handler, with no [try] around it: the handler ends there
    and the browser reports the exception. *)
Definition throw (e : exception) : action := fun w =>
  mkWorld (state w) (localStorage w) (toasts w) (files w) (uncaught w ++ [e])
          (expenses_set w).

Definition localStorage_setItem (k v : string) : action := fun w =>
  mkWorld (state w) (<[k := v]> (localStorage w)) (toasts w) (files w) (uncaught w) (expenses_set w).

Definition localStorage_removeItem (k : string) : action := fun w =>
  mkWorld (state w) (delete k (localStorage w)) (toasts w) (files w) (uncaught w) (expenses_set w).

Definition localStorage_getItem (k : string) (w : World) : option string :=
  localStorage w !! k.

(** *** Persistence: the two effects *)

(** How the mount of the component ends: it is up and running, an exception
    left an effect, or [JSON.parse] handed [setExpenses] a value that is not
    a list of records as the component writes them (what the component does
    with such a value is not modelled). *)
Inductive outcome : Type :=
  | Running (w : World)
  | Thrown (e : exception)
  | IllTyped (v : json).

(** [useEffect(() => { ... }, [])]: load the expenses when the component
    mounts. *)
Definition load_effect (w : World) : outcome :=
  match localStorage_getItem "expenses" w with
  | Some savedExpenses =>
      if truthy savedExpenses then
        match JSON_parse savedExpenses with
        | None => Thrown SyntaxError
        | Some v =>
            match expenses_of_json v with
            | Some l => Running (setExpenses l w)
            | None => IllTyped v
            end
        end
      else Running w
  | None => Running w
  end.

(** [useEffect(() => { ... }, [expenses])]: save the expenses of the render
    the effect belongs to. *)
Definition save_effect (rendered : list Expense) : action :=
  localStorage_setItem "expenses" (JSON_stringify (json_of_expenses rendered)).

(** A render after a handler or an effect: the save effect runs again when
    [expenses] was set. *)
Definition render : action := fun w =>
  if expenses_set w then
    save_effect (expenses (state w))
      (mkWorld (state w) (localStorage w) (toasts w) (files w) (uncaught w) false)
  else w.

(** A user event: the handler runs to its end, then the component renders. *)
Definition on (handler : action) : action := (handler ;; render)%action.

Definition initial (storage : gmap string string) : World :=
  mkWorld (mkState [] "" "" "") storage [] [] [] false.

(** Session start.  The first render has [expenses = []]; its effects run in
    the order they are declared, the save effect with the [expenses] of that
    first render; the render that follows a load saves what was loaded. *)
Definition mount (storage : gmap string string) : outcome :=
  let w0 := initial storage in
  match load_effect w0 with
  | Running w1 => Running (render (save_effect (expenses (state w0)) w1))
  | Thrown e => Thrown e
  | IllTyped v => IllTyped v
  end.

(** *** Record store *)

(** [Date.now().toString()]: a time value is an integer number of
    milliseconds, well below [10^21], which prints as its decimal numeral.
    The reading is that of the wall clock: nothing keeps two readings
    apart. *)
Definition Date_now_toString (now : Z) : string := decimal now.

(** [addExpense], on a click at clock reading [now] when
    [new Date().toLocaleDateString()] is [today]. *)
Definition addExpense (now : Z) (today : string) : action := fun w =>
  let st := state w in
  if negb (truthy (form_amount st)) || negb (truthy (form_description st))
     || negb (truthy (form_category st))
  then show (toast_error "Please fill in all fields") w
  else
    let newExpense :=
      {| id := Date_now_toString now;
         amount := parseFloat (form_amount st);
         description := form_description st;
         category := form_category st;
         date := today |} in
    (setExpenses (newExpense :: expenses st) ;;
     setAmount "" ;;
     setDescription "" ;;
     setCategory "" ;;
     show (toast_success "Expense added successfully!"))%action w.

Definition deleteExpense (id0 : string) : action := fun w =>
  (setExpenses (filter (fun expense => id expense <> id0) (expenses (state w))) ;;
   show (toast_success "Expense deleted"))%action w.

Definition resetAllExpenses : action :=
  (setExpenses [] ;;
   localStorage_removeItem "expenses" ;;
   show (toast_success "All expenses cleared"))%action.

(** *** Aggregator *)

Definition totalExpenses (l : list Expense) : number :=
  fold_left (fun sum expense => add sum (amount expense)) l zero.

(** *** Export engine *)

Definition LF : string := String (ascii_of_N 10) EmptyString.

(** The cells of one record, shared by the three exports. *)
Definition export_row (exp : Expense) : list string :=
  [ date exp; description exp; category_label (category exp); toFixed 2 (amount exp) ].

Definition csv_header : list string := ["Date"; "Description"; "Category"; "Amount"].

Definition csvContent (l : list Expense) : string :=
  join LF (map (join ",") (csv_header :: map export_row l)).

Definition exportToCSV : action := fun w =>
  if Nat.eqb (length (expenses (state w))) 0
  then show (toast_error "No expenses to export") w
  else
    (save_file (BlobFile "cleaned_financial_data.csv" "text/csv"
                  (csvContent (expenses (state w)))) ;;
     show (toast_success "CSV exported successfully"))%action w.

(** An object literal with string values: its own keys in the order they
    were written. *)
Definition row_object : Type := list (string * string).

Definition excel_row (exp : Expense) : row_object :=
  [ ("Date", date exp);
    ("Description", description exp);
    ("Category", category_label (category exp));
    ("Amount 💸", toFixed 2 (amount exp)) ].

Fixpoint field (k : string) (o : row_object) : option string :=
  match o with
  | [] => None
  | (k', v) :: r => if String.eqb k k' then Some v else field k r
  end.

Definition has_key (k : string) (ks : list string) : bool :=
  existsb (String.eqb k) ks.

(** [XLSX.utils.json_to_sheet]: the column names are the keys of the objects
    in the order they first appear; each object fills one row under them. *)
Definition sheet_header (data : list row_object) : list string :=
  fold_left
    (fun hdr o =>
       fold_left (fun hdr kv => if has_key (fst kv) hdr then hdr else hdr ++ [fst kv]) o hdr)
    data [].

Definition json_to_sheet (data : list row_object) : worksheet :=
  let hdr := sheet_header data in
  map Some hdr :: map (fun o => map (fun k => field k o) hdr) data.

Definition book_new : workbook := [].

Definition book_append_sheet (wb : workbook) (ws : worksheet) (name : string) : workbook :=
  wb ++ [(name, ws)].

(** [XLSX.writeFile] writes a text cell only when it has at most 32767
    characters; on a longer one it throws. *)
Definition cell_fits (c : option string) : bool :=
  match c with
  | Some text => String_length text <=? 32767
  | None => true
  end.

Definition sheet_fits (ws : worksheet) : bool := forallb (forallb cell_fits) ws.

Definition workbook_fits (wb : workbook) : bool :=
  forallb (fun sheet => sheet_fits (snd sheet)) wb.

(** The call of [XLSX.writeFile] has no [try] around it: when it throws, the
    toast after it is not reached. *)
Definition exportToExcel : action := fun w =>
  if Nat.eqb (length (expenses (state w))) 0
  then show (toast_error "No expenses to export") w
  else
    let data := map excel_row (expenses (state w)) in
    let ws := json_to_sheet data in
    let wb := book_append_sheet book_new ws "Expenses" in
    if workbook_fits wb then
      (save_file (XlsxFile "cleaned_financial_data.xlsx" wb) ;;
       show (toast_success "Excel file exported successfully"))%action w
    else throw (Error "Text length must not exceed 32767 characters") w.

Definition exportToPDF : action := fun w =>
  if Nat.eqb (length (expenses (state w))) 0
  then show (toast_error "No expenses to export") w
  else
    let tableData := map export_row (expenses (state w)) in
    let doc :=
      [ SetFontSize 16;
        Text "Financial Data 💸" 14 15;
        AutoTable [["Date"; "Description"; "Category"; "Amount 💸"]] tableData 25 ] in
    (save_file (PdfFile "cleaned_financial_data.pdf" doc) ;;
     show (toast_success "PDF exported successfully"))%action w.

(** *** The operations of the specification, as user events *)

(** The three form controls hand their values to the hooks through
    [onChange]: the amount field is an [<input type="number">] that holds
    the text [a], the description field a text input that holds [d], and [c]
    is the value of the item chosen in the category list, empty when none
    was chosen. *)
Definition typeForm (a d c : string) : action :=
  (on (setAmount (number_input_value a)) ;; on (setDescription d)
   ;; on (setCategory c))%action.

(** [Add(amount, description, category)]: fill in the form, press the button. *)
Definition Add (a d c : string) (now : Z) (today : string) : action :=
  (typeForm a d c ;; on (addExpense now today))%action.

(** [Delete(id)]: the [deleteExpense] of the current render, called with
    [id], as the delete button of a row of that render calls it. *)
Definition Delete (id0 : string) : action := on (deleteExpense id0).

Definition Reset : action := on resetAllExpenses.

Definition Snapshot (w : World) : list Expense := expenses (state w).

Definition Count (w : World) : nat := length (Snapshot w).

Definition Total (w : World) : number := totalExpenses (Snapshot w).

Inductive op : Type :=
  | OpAdd (a d c : string) (now : Z) (today : string)
  | OpDelete (id0 : string)
  | OpReset.

Definition run_op (o : op) : action :=
  match o with
  | OpAdd a d c now today => Add a d c now today
  | OpDelete id0 => Delete id0
  | OpReset => Reset
  end.

Definition run (ops : list op) (w : World) : World :=
  fold_left (fun w o => run_op o w) ops w.

Definition ids (l : list Expense) : list string := map id l.

Definition two_records : World :=
  Add "12.00" "Bus" "transport" 2000 "1/2/2026"
    (Add "25.50" "Coffee" "food" 1000 "1/1/2026" (initial ∅)).

Definition same_millisecond : World :=
  Add "3" "Tea" "food" 1000 "1/1/2026"
    (Add "5" "Bus" "transport" 1000 "1/1/2026" (initial ∅)).

(** *** The specification's description of the exports *)

(** What [join] puts after the first element: each further element behind a
    separator. *)
Fixpoint joined_tail (sep : string) (l : list string) : string :=
  match l with
  | [] => ""
  | y :: r => sep +:+ y +:+ joined_tail sep r
  end.

(** The four column names of the spreadsheet and of the PDF table. *)
Definition sheet_columns : list string :=
  ["Date"; "Description"; "Category"; "Amount 💸"].

(** One CSV row as the specification words it: the four cells, joined by
    commas. *)
Definition csv_line (e : Expense) : string :=
  date e +:+ "," +:+ description e +:+ "," +:+ category_label (category e)
  +:+ "," +:+ toFixed 2 (amount e).

(** The rows under the header, each on a line of its own, in list order. *)
Fixpoint csv_rows (l : list Expense) : string :=
  match l with
  | [] => ""
  | e :: r => LF +:+ csv_line e +:+ csv_rows r
  end.

(** An export that found nothing to export: the error toast, and nothing
    else changed. *)
Definition nothing_exported (w w' : World) : Prop :=
  toasts w' = toasts w ++ [toast_error "No expenses to export"]
  /\ files w' = files w
  /\ state w' = state w
  /\ localStorage w' = localStorage w.

(** A numeral with two decimal places: an optional minus sign, at least one
    integer digit, the point, two digits. *)
Fixpoint all_digits (s : string) : bool :=
  match s with
  | EmptyString => true
  | String c r => is_digit c && all_digits r
  end.

Definition two_decimals (s : string) : Prop :=
  exists sign int frac,
    s = sign +:+ int +:+ "." +:+ frac
    /\ (sign = "" \/ sign = "-")
    /\ int <> "" /\ all_digits int = true
    /\ all_digits frac = true /\ String.length frac = 2%nat.

(** The numbers [toFixed] prints in fixed notation: the finite ones below
    [10^21] in magnitude. *)
Definition below_1e21 (x : number) : Prop :=
  match x with
  | S754_zero _ => True
  | S754_finite _ m e => fst (ratio m e) < 10 ^ 21 * snd (ratio m e)
  | _ => False
  end.

(** A record of a sextillion, entered as [1e21]. *)
Definition sextillion : World :=
  Add "1e21" "Yacht" "other" 1000 "1/1/2026" (initial ∅).

(** A record whose description has 32768 characters. *)
Definition long_description : World :=
  Add "1" (string_of_list_ascii (repeat "a"%char (Z.to_nat 32768))) "food" 1000 "1/1/2026"
    (initial ∅).

(** A rejected [Add]: the validation toast, and nothing else changed. *)
Definition validation_failure (w w' : World) : Prop :=
  toasts w' = toasts w ++ [toast_error "Please fill in all fields"]
  /\ state w' = state w
  /\ localStorage w' = localStorage w
  /\ files w' = files w.


(** The clock readings at which a trace presses the Add button. *)
Fixpoint add_times (ops : list op) : list Z :=
  match ops with
  | [] => []
  | OpAdd _ _ _ now _ :: r => now :: add_times r
  | _ :: r => add_times r
  end.

(** *** What the component shows *)

(** [getCategoryColor]: the style class of a category, that of [other] for
    a code outside the catalogue. *)
Definition getCategoryColor (categoryValue : string) : string :=
  match List.find (fun c => String.eqb (value c) categoryValue) categories with
  | Some cat => color cat
  | None => "category-other"
  end.

(** One entry of the list of recent expenses: its React key, the class of
    its coloured dot, the description, the line under it (the label of the
    category, when the catalogue has one, and the date), the amount text,
    and the id its delete button passes to [deleteExpense]. *)
Record Item : Type := mkItem {
  key : string;
  dot : string;
  title : string;
  shown_label : option string;
  shown_date : string;
  shown_amount : string;
  delete_id : string
}.

Definition item_of (expense : Expense) : Item :=
  {| key := id expense;
     dot := "w-4 h-4 rounded-full bg-" +:+ getCategoryColor (category expense);
     title := description expense;
     shown_label :=
       option_map label
         (List.find (fun c => String.eqb (value c) (category expense)) categories);
     shown_date := date expense;
     shown_amount := "💸 " +:+ toFixed 2 (amount expense);
     delete_id := id expense |}.

(** The parts of the rendered page that depend on the hooks: the total, the
    count, whether the export and reset buttons are there
    ([expenses.length > 0]), and the list, or the note that stands in for it
    when there is no expense ([expenses.length === 0]).  React tells the
    rows of the list apart by their [key], the id of the record: when two
    records have one id, the rows on the page depend on what the page showed
    before, and the hooks do not determine them ([items] is [None]). *)
Record View : Type := mkView {
  total_text : string;
  count_text : string;
  buttons_shown : bool;
  empty_note : bool;
  items : option (list Item)
}.

Definition view (st : State) : View :=
  {| total_text := "💸 " +:+ toFixed 2 (totalExpenses (expenses st));
     count_text := decimal (Z.of_nat (length (expenses st))) +:+ " transactions";
     buttons_shown := negb (Nat.eqb (length (expenses st)) 0);
     empty_note := Nat.eqb (length (expenses st)) 0;
     items := if Nat.eqb (length (expenses st)) 0 then Some []
              else if decide (NoDup (ids (expenses st)))
                   then Some (map item_of (expenses st))
                   else None |}.

(** *** Notions used by the further properties *)

(** The stored copy mirrors the list: no save is pending and the key holds
    the text of the current list. *)
Definition mirrored (w : World) : Prop :=
  expenses_set w = false
  /\ localStorage w !! "expenses"
     = Some (JSON_stringify (json_of_expenses (Snapshot w))).

(** A record as [addExpense] lets it in: description and category are not
    empty. *)
Definition filled_in (e : Expense) : Prop :=
  description e <> "" /\ category e <> "".

Definition mentions_NaN (l : list Expense) : Prop :=
  exists e, e ∈ l /\ amount e = NaN.

(** What no export does: change the hooks or the storage. *)
Definition read_only_export (w w' : World) : Prop :=
  state w' = state w
  /\ localStorage w' = localStorage w
  /\ expenses_set w' = expenses_set w.

(** An export that came to its end: it showed one toast, and saved one file
    when the page shows the export buttons and none otherwise. *)
Definition export_finished (w w' : World) : Prop :=
  length (toasts w') = S (length (toasts w))
  /\ uncaught w' = uncaught w
  /\ (if buttons_shown (view (state w))
      then exists f, files w' = files w ++ [f]
      else files w' = files w).

(** An export that an exception ended: no toast, no file. *)
Definition export_thrown (e : exception) (w w' : World) : Prop :=
  toasts w' = toasts w
  /\ files w' = files w
  /\ uncaught w' = uncaught w ++ [e].

(** Every cell that the exports print for the records of [l] has at most
    32767 characters. *)
Definition cells_fit (l : list Expense) : bool :=
  forallb (fun e => forallb (fun text => String_length text <=? 32767) (export_row e)) l.

(** *** Notions for the stored text *)

(** The number production of [JSON.parse] reads the text of [x] back as
    [x]. *)
Definition reads_back (x : number) : Prop :=
  read_number (list_ascii_of_string (Number_toString x)) = Some (x, []).

(** What [JSON.stringify] keeps of an amount: a finite number as it is,
    [null] for NaN and the infinities. *)
Definition stored_amount (x : number) : json :=
  match x with
  | S754_nan | S754_infinity _ => JNull
  | _ => JNumber x
  end.

Definition storable (x : number) : Prop :=
  match x with
  | S754_nan | S754_infinity _ => True
  | _ => reads_back x
  end.

Definition finite (x : number) : Prop :=
  match x with
  | S754_nan | S754_infinity _ => False
  | _ => True
  end.

(** The value that the stored text of a record denotes. *)
Definition stored_json (e : Expense) : json :=
  JObject [ ("id", JString (id e));
            ("amount", stored_amount (amount e));
            ("description", JString (description e));
            ("category", JString (category e));
            ("date", JString (date e)) ].

(** The loop of [read_value] over the elements of an array, by itself. *)
Definition elements_loop (fuel' : nat)
  : nat -> list json -> list ascii -> option (json * list ascii) :=
  fix elements (n : nat) (acc : list json) (cs : list ascii)
    : option (json * list ascii) :=
    match n with
    | O => None
    | S n' =>
        match read_value fuel' cs with
        | Some (v, rest) =>
            match skip_ws rest with
            | d :: rest' =>
                if byte d =? 44 then elements n' (v :: acc) (skip_ws rest')
                else if byte d =? 93 then Some (JArray (rev (v :: acc)), rest')
                else None
            | [] => None
            end
        | None => None
        end
    end.

(** The text of the elements of a stored array, between the brackets. *)
Fixpoint elements_text (l : list Expense) : list ascii :=
  match l with
  | [] => []
  | e :: r =>
      list_ascii_of_string (JSON_stringify (json_of_expense e))
      ++ match r with
         | [] => []
         | _ :: _ => list_ascii_of_string "," ++ elements_text r
         end
  end.

(** The world a session starts in when nothing is stored. *)
Definition fresh_session : World := render (save_effect [] (initial ∅)).

(** The three stages of [read_number] after the sign, by themselves: the
    integer part, the fraction, the exponent. *)
Definition number_int (cs1 : list ascii) : option (Z * list ascii) :=
  match cs1 with
  | c :: r =>
      if byte c =? 48 then Some (0, r)
      else if is_digit c then
        let '(v, _, rest) := read_digits 0 0 cs1 in Some (v, rest)
      else None
  | [] => None
  end.

Definition number_frac (ip : Z) (cs2 : list ascii) : option (Z * Z * list ascii) :=
  match cs2 with
  | c :: r =>
      if byte c =? 46 then
        let '(v, len, rest) := read_digits ip 0 r in
        if len =? 0 then None else Some (v, len, rest)
      else Some (ip, 0, cs2)
  | [] => Some (ip, 0, cs2)
  end.

Definition number_exp (neg : bool) (m flen : Z) (cs3 : list ascii)
  : option (number * list ascii) :=
  match cs3 with
  | c :: r =>
      if (byte c =? 101) || (byte c =? 69) then
        match exponent_part cs3 with
        | Some (ex, rest) => Some (of_decimal neg m (ex - flen), rest)
        | None => None
        end
      else Some (of_decimal neg m (- flen), cs3)
  | [] => Some (of_decimal neg m (- flen), cs3)
  end.

Definition number_sign (cs : list ascii) : bool * list ascii :=
  match cs with
  | c :: r => if byte c =? 45 then (true, r) else (false, cs)
  | [] => (false, cs)
  end.

(** The loop of [read_value] over the members of an object, by itself. *)
Definition members_loop (fuel' : nat)
  : nat -> list (string * json) -> list ascii -> option (json * list ascii) :=
  fix members (n : nat) (acc : list (string * json)) (cs : list ascii)
    : option (json * list ascii) :=
    match n with
    | O => None
    | S n' =>
        match cs with
        | q :: cs1 =>
            if byte q =? 34 then
              match read_string [] cs1 with
              | Some (k, rest) =>
                  match skip_ws rest with
                  | col :: rest1 =>
                      if byte col =? 58 then
                        match read_value fuel' (skip_ws rest1) with
                        | Some (v, rest2) =>
                            match skip_ws rest2 with
                            | d :: rest3 =>
                                if byte d =? 44
                                then members n' (set_member k v acc) (skip_ws rest3)
                                else if byte d =? 125
                                then Some (JObject (set_member k v acc), rest3)
                                else None
                            | [] => None
                            end
                        | None => None
                        end
                      else None
                  | [] => None
                  end
              | None => None
              end
            else None
        | [] => None
        end
    end.

(** The list of [two_records], written out. *)
Definition bus_and_coffee : list Expense :=
  [ {| id := "2000"; amount := parseFloat "12.00"; description := "Bus";
       category := "transport"; date := "1/2/2026" |};
    {| id := "1000"; amount := parseFloat "25.50"; description := "Coffee";
       category := "food"; date := "1/1/2026" |} ].

(** A stored text in which the amount of the first record is written
    [1e400], a numeral beyond the range of numbers, which [JSON.parse] reads
    as Infinity; and the list it stands for. *)
Definition overflowing_text : string :=
  "[{" +:+ quote "id" +:+ ":" +:+ quote "2000" +:+ ","
  +:+ quote "amount" +:+ ":1e400,"
  +:+ quote "description" +:+ ":" +:+ quote "Bus" +:+ ","
  +:+ quote "category" +:+ ":" +:+ quote "transport" +:+ ","
  +:+ quote "date" +:+ ":" +:+ quote "1/2/2026" +:+ "},{"
  +:+ quote "id" +:+ ":" +:+ quote "1000" +:+ ","
  +:+ quote "amount" +:+ ":25.5,"
  +:+ quote "description" +:+ ":" +:+ quote "Coffee" +:+ ","
  +:+ quote "category" +:+ ":" +:+ quote "food" +:+ ","
  +:+ quote "date" +:+ ":" +:+ quote "1/1/2026" +:+ "}]".

(** A stored text whose record has its amount before its id. *)
Definition amount_first_text : string :=
  "[{" +:+ quote "amount" +:+ ":5,"
  +:+ quote "id" +:+ ":" +:+ quote "1000" +:+ ","
  +:+ quote "description" +:+ ":" +:+ quote "Coffee" +:+ ","
  +:+ quote "category" +:+ ":" +:+ quote "food" +:+ ","
  +:+ quote "date" +:+ ":" +:+ quote "1/1/2026" +:+ "}]".

Definition bus_beyond_range : list Expense :=
  [ {| id := "2000"; amount := S754_infinity false; description := "Bus";
       category := "transport"; date := "1/2/2026" |};
    {| id := "1000"; amount := parseFloat "25.50"; description := "Coffee";
       category := "food"; date := "1/1/2026" |} ].

(** Hooks that hold a record whose amount is NaN. *)
Definition lunch_not_a_number : World :=
  setExpenses
    [ {| id := "3000"; amount := NaN; description := "Lunch";
         category := "food"; date := "1/3/2026" |};
      {| id := "1000"; amount := parseFloat "25.50"; description := "Coffee";
         category := "food"; date := "1/1/2026" |} ]
    (initial ∅).

(** * Properties *)

(** ** Rendering and the save effect touch the storage only *)

Lemma state_render w : state (render w) = state w.
Proof. unfold render. destruct (expenses_set w); reflexivity. Qed.

Lemma toasts_render w : toasts (render w) = toasts w.
Proof. unfold render. destruct (expenses_set w); reflexivity. Qed.

Lemma files_render w : files (render w) = files w.
Proof. unfold render. destruct (expenses_set w); reflexivity. Qed.

Lemma expenses_set_render w : expenses_set (render w) = false.
Proof. unfold render. destruct (expenses_set w) eqn:E; [reflexivity | exact E]. Qed.

Lemma render_saved w :
  expenses_set w = true ->
  localStorage (render w) !! "expenses"
  = Some (JSON_stringify (json_of_expenses (expenses (state w)))).
Proof.
  intros E. unfold render. rewrite E. cbn [save_effect localStorage_setItem localStorage].
  apply lookup_insert_eq.
Qed.

Lemma render_idle w : expenses_set w = false -> render w = w.
Proof. intros E. unfold render. rewrite E. reflexivity. Qed.

Lemma Snapshot_typeForm a d c w : Snapshot (typeForm a d c w) = Snapshot w.
Proof.
  unfold typeForm, on, seq, Snapshot.
  repeat (rewrite state_render;
          cbn [setAmount setDescription setCategory with_state state expenses]).
  reflexivity.
Qed.

Lemma truthy_false s : truthy s = false <-> s = "".
Proof.
  unfold truthy. destruct (String.eqb_spec s ""); simpl; split; congruence.
Qed.

(** Settles the test [!s] of the validation for a text [s] known not to be
    empty. *)
Ltac filled s :=
  let T := fresh "T" in
  destruct (truthy s) eqn:T; [|by apply truthy_false in T].

(** ** Delete *)

Section Delete.

Variable id0 : string.

Lemma Snapshot_Delete w :
  Snapshot (Delete id0 w) = filter (fun expense => id expense <> id0) (Snapshot w).
Proof. unfold Delete, on, seq, Snapshot. rewrite state_render. reflexivity. Qed.

Lemma toasts_Delete w :
  toasts (Delete id0 w) = toasts w ++ [toast_success "Expense deleted"].
Proof. unfold Delete, on, seq. rewrite toasts_render. reflexivity. Qed.

Lemma filter_absent (l : list Expense) :
  id0 ∉ ids l -> filter (fun expense => id expense <> id0) l = l.
Proof.
  induction l as [|e l IH]; intros H; [reflexivity|].
  cbn [ids map] in H. apply not_elem_of_cons in H as [Hne H].
  rewrite filter_cons_True by congruence. f_equal. apply IH, H.
Qed.


End Delete.




(** C10.  [Delete(id)] reports the success notification whether or not a
    record with that id exists: also when none does, and the list is left as
    it was, the toast is shown. *)
Theorem Delete_always_reports_success (id0 : string) (w : World) :
  toasts (deleteExpense id0 w) = toasts w ++ [toast_success "Expense deleted"]
  /\ toasts (Delete id0 w) = toasts w ++ [toast_success "Expense deleted"]
  /\ (id0 ∉ ids (Snapshot w) ->
      Snapshot (Delete id0 w) = Snapshot w
      /\ toasts (Delete id0 w) = toasts w ++ [toast_success "Expense deleted"]).
Proof.
  rewrite toasts_Delete. repeat split.
  rewrite Snapshot_Delete. by apply filter_absent.
Qed.

Lemma Delete_always_reports_success_witness :
  Snapshot (Delete "unknown" two_records) = Snapshot two_records
  /\ toasts (Delete "unknown" two_records)
     = toasts two_records ++ [toast_success "Expense deleted"].
Proof.
  apply (Delete_always_reports_success "unknown" two_records).
  compute_done.
Defined.

(** ** Fixed notation *)

Lemma all_digits_app (a b : string) :
  all_digits (a +:+ b) = all_digits a && all_digits b.
Proof.
  induction a as [|x a IH]; [reflexivity|].
  change (is_digit x && all_digits (a +:+ b)
          = is_digit x && all_digits a && all_digits b).
  rewrite IH. by rewrite andb_assoc.
Qed.

Lemma length_append (a b : string) :
  String.length (a +:+ b) = (String.length a + String.length b)%nat.
Proof.
  induction a as [|x a IH]; [reflexivity|].
  change (S (String.length (a +:+ b)) = S (String.length a + String.length b)).
  by rewrite IH.
Qed.

Lemma all_digits_zeros (j : Z) : all_digits (zeros j) = true.
Proof. unfold zeros. induction (Z.to_nat j) as [|n IH]; [reflexivity | exact IH]. Qed.

Lemma length_zeros (j : Z) : String.length (zeros j) = Z.to_nat j.
Proof.
  unfold zeros. induction (Z.to_nat j) as [|n IH]; [reflexivity|].
  cbn. by rewrite IH.
Qed.

Lemma all_digits_substring (s : string) (a b : nat) :
  all_digits s = true -> all_digits (String.substring a b s) = true.
Proof.
  revert a b. induction s as [|c s IH]; intros a b H.
  - destruct a, b; reflexivity.
  - cbn in H. apply andb_true_iff in H as [Hc Hs].
    destruct a as [|a]; [destruct b as [|b]|]; cbn; [reflexivity | | by apply IH].
    rewrite Hc. by apply IH.
Qed.

Lemma length_substring (s : string) (a b : nat) :
  (a + b <= String.length s)%nat -> String.length (String.substring a b s) = b.
Proof.
  revert a b. induction s as [|c s IH]; intros a b H; cbn in H.
  - assert (a = 0%nat) by lia. assert (b = 0%nat) by lia. by subst.
  - destruct a as [|a]; [destruct b as [|b]|]; cbn; [reflexivity | | apply IH; lia].
    f_equal. apply IH. cbn. lia.
Qed.

Lemma all_digits_uint (d : Decimal.uint) :
  all_digits (NilEmpty.string_of_uint d) = true.
Proof. induction d; cbn; auto. Qed.

Lemma uint_text_empty (d : Decimal.uint) :
  NilEmpty.string_of_uint d = "" -> d = Decimal.Nil.
Proof. destruct d; cbn; [reflexivity | discriminate ..]. Qed.

Lemma decimal_digits (n : Z) :
  0 <= n -> all_digits (decimal n) = true /\ decimal n <> "".
Proof.
  intros Hn. destruct n as [|p|p]; [split; [reflexivity | discriminate] | | lia].
  unfold decimal. cbn [Z.to_int NilZero.string_of_int].
  pose proof (DecimalPos.Unsigned.to_uint_nonnil p) as Hp.
  assert (E : NilZero.string_of_uint (Pos.to_uint p)
              = NilEmpty.string_of_uint (Pos.to_uint p))
    by (destruct (Pos.to_uint p); [congruence | reflexivity ..]).
  rewrite E. split; [apply all_digits_uint|].
  intros H0. by apply uint_text_empty in H0.
Qed.

Lemma fixed_digits_two (n : Z) :
  0 <= n ->
  exists int frac,
    fixed_digits 2 n = int +:+ "." +:+ frac
    /\ int <> "" /\ all_digits int = true
    /\ all_digits frac = true /\ String.length frac = 2%nat.
Proof.
  intros Hn. destruct (decimal_digits n Hn) as [Hd Hne].
  unfold fixed_digits. cbn [Z.eqb].
  set (m := decimal n) in *.
  assert (Hlen : (1 <= String.length m)%nat).
  { destruct m; [congruence | cbn; lia]. }
  set (k := Z.of_nat (String.length m)).
  set (m' := if k <=? 2 then zeros (2 + 1 - k) +:+ m else m).
  set (k' := if k <=? 2 then 2 + 1 else k).
  assert (Hm' : all_digits m' = true /\ String.length m' = Z.to_nat k' /\ 3 <= k').
  { unfold m', k'. destruct (Z.leb_spec k 2).
    - rewrite all_digits_app, all_digits_zeros, Hd, length_append, length_zeros.
      unfold k in *. repeat split; lia.
    - unfold k in *. repeat split; [exact Hd | lia ..]. }
  destruct Hm' as (Hd' & Hl' & Hk').
  exists (substr 0 (k' - 2) m'), (substr (k' - 2) 2 m').
  split; [reflexivity|]. unfold substr.
  assert (L1 : String.length (String.substring (Z.to_nat 0) (Z.to_nat (k' - 2)) m')
               = Z.to_nat (k' - 2)) by (apply length_substring; lia).
  split; [|split; [|split]].
  - intros H0. rewrite H0 in L1. cbn in L1. lia.
  - by apply all_digits_substring.
  - by apply all_digits_substring.
  - rewrite length_substring; lia.
Qed.

Lemma ratio_positive (m : positive) (e : Z) :
  0 < fst (ratio m e) /\ 0 < snd (ratio m e).
Proof.
  assert (P : forall k, 0 <= k -> 0 < 2 ^ k)
    by (intros k Hk; apply Z.pow_pos_nonneg; lia).
  unfold ratio. destruct (Z.leb_spec 0 e); cbn [fst snd]; split;
    first [ lia | apply P; lia | apply Z.mul_pos_pos; [lia | apply P; lia] ].
Qed.

(** Below [10^21], [toFixed(2)] prints two decimal places. *)
Lemma toFixed_two_decimals (x : number) :
  below_1e21 x -> two_decimals (toFixed 2 x).
Proof.
  destruct x as [s|s| |s m e]; cbn [below_1e21]; intros H; try contradiction.
  - exists "", "0", "00". split; [reflexivity|]. split; [by left|].
    split; [discriminate|]. split; [reflexivity|]. split; reflexivity.
  - unfold toFixed. pose proof (ratio_positive m e) as [Hn Hd].
    destruct (ratio m e) as [num den]. cbn [fst snd] in *.
    destruct (Z.leb_spec (10 ^ 21 * den) num) as [Hge|_]; [lia|].
    destruct (fixed_digits_two ((2 * num * 10 ^ 2 + den) / (2 * den)))
      as (int & frac & -> & Hi); [apply Z.div_pos; lia|].
    exists (if s then "-" else ""), int, frac.
    split; [reflexivity|]. split; [destruct s; auto | exact Hi].
Qed.

Lemma exponent_notation_not_two_decimals : ~ two_decimals "1e+21".
Proof.
  intros (sign & int & frac & E & Hs & Hne & Hint & _).
  destruct Hs as [-> | ->]; [|discriminate E].
  change ("1e+21" = int +:+ "." +:+ frac) in E.
  destruct int as [|c1 int]; [congruence|].
  change ("1e+21" = String c1 (int +:+ "." +:+ frac)) in E.
  injection E as <- E.
  destruct int as [|c2 int]; [discriminate E|].
  change ("e+21" = String c2 (int +:+ "." +:+ frac)) in E.
  injection E as <- E. discriminate Hint.
Qed.

(** ** Exports *)

(** C8.  With an empty snapshot each of the three exports shows the
    [No expenses to export] error, saves no file and leaves the record store
    and its stored copy as they were. *)
Theorem export_empty_snapshot (w : World) :
  Snapshot w = [] ->
  nothing_exported w (exportToCSV w)
  /\ nothing_exported w (exportToExcel w)
  /\ nothing_exported w (exportToPDF w).
Proof.
  unfold Snapshot, nothing_exported, exportToCSV, exportToExcel, exportToPDF.
  intros ->. cbn. repeat split.
Qed.

Lemma export_empty_snapshot_witness :
  nothing_exported (initial ∅) (exportToCSV (initial ∅))
  /\ nothing_exported (initial ∅) (exportToExcel (initial ∅))
  /\ nothing_exported (initial ∅) (exportToPDF (initial ∅)).
Proof. apply (export_empty_snapshot (initial ∅)). reflexivity. Defined.

Lemma append_assoc (a b c : string) : (a +:+ b) +:+ c = a +:+ (b +:+ c).
Proof.
  induction a as [|x a IH]; [reflexivity|].
  change (String x ((a +:+ b) +:+ c) = String x (a +:+ (b +:+ c))).
  by rewrite IH.
Qed.

Lemma append_empty_r (a : string) : a +:+ "" = a.
Proof.
  induction a as [|x a IH]; [reflexivity|].
  change (String x (a +:+ "") = String x a). by rewrite IH.
Qed.

Section Join.

Variable sep : string.

Lemma fold_join (l : list string) (x : string) :
  fold_left (fun acc y => acc +:+ sep +:+ y) l x = x +:+ joined_tail sep l.
Proof.
  revert x. induction l as [|y l IH]; intros x; cbn [fold_left joined_tail].
  - by rewrite append_empty_r.
  - rewrite IH. by rewrite !append_assoc.
Qed.

Lemma join_cons (x : string) (l : list string) :
  join sep (x :: l) = x +:+ joined_tail sep l.
Proof. apply fold_join. Qed.

End Join.

Lemma join_export_row (e : Expense) : join "," (export_row e) = csv_line e.
Proof.
  unfold export_row. rewrite join_cons. cbn [joined_tail].
  unfold csv_line. by rewrite append_empty_r.
Qed.

Lemma joined_rows (l : list Expense) :
  joined_tail LF (map (join ",") (map export_row l)) = csv_rows l.
Proof.
  induction l as [|e l IH]; [reflexivity|].
  cbn [map joined_tail csv_rows]. by rewrite IH, join_export_row.
Qed.

Lemma csvContent_rows (l : list Expense) :
  csvContent l = "Date,Description,Category,Amount" +:+ csv_rows l.
Proof.
  unfold csvContent. cbn [map]. rewrite join_cons, joined_rows. reflexivity.
Qed.

Lemma category_label_known (c : Category) :
  c ∈ categories -> category_label (value c) = label c.
Proof.
  unfold categories. rewrite !elem_of_cons, elem_of_nil.
  intros H. repeat (destruct H as [->|H]; [reflexivity|]). contradiction.
Qed.

Lemma category_label_unknown (code : string) :
  (forall c, c ∈ categories -> value c <> code) -> category_label code = code.
Proof.
  intros H. unfold category_label.
  destruct (List.find _ categories) as [c|] eqn:F; [|reflexivity].
  apply List.find_some in F as [HIn E].
  apply String.eqb_eq in E. apply list_elem_of_In in HIn.
  by apply H in HIn.
Qed.

(** ** Add *)

Lemma numeric_not_empty (a : string) : numeric a = true -> a <> "".
Proof. intros H ->. discriminate H. Qed.

Lemma number_input_value_numeric (a : string) :
  numeric a = true -> number_input_value a = a.
Proof. unfold number_input_value. by intros ->. Qed.

Lemma number_input_value_empty (a : string) :
  number_input_value a = "" <-> numeric a = false.
Proof.
  unfold number_input_value. destruct (numeric a) eqn:N.
  - split; [|discriminate]. intros ->. discriminate N.
  - tauto.
Qed.

Lemma state_typeForm a d c w :
  state (typeForm a d c w) = mkState (expenses (state w)) (number_input_value a) d c.
Proof.
  unfold typeForm, on, seq.
  repeat (rewrite state_render;
          cbn [setAmount setDescription setCategory with_state state expenses
               form_amount form_description form_category]).
  reflexivity.
Qed.

Lemma toasts_typeForm a d c w : toasts (typeForm a d c w) = toasts w.
Proof.
  unfold typeForm, on, seq.
  repeat (rewrite toasts_render;
          cbn [setAmount setDescription setCategory with_state toasts]).
  reflexivity.
Qed.

(** The record [addExpense] builds from the form. *)
Lemma Snapshot_Add a d c now today w :
  numeric a = true -> d <> "" -> c <> "" ->
  Snapshot (Add a d c now today w)
  = mkExpense (Date_now_toString now) (parseFloat a) d c today :: Snapshot w.
Proof.
  intros Na Hd Hc. pose proof (numeric_not_empty a Na) as Ha.
  unfold Add, on, seq, Snapshot. rewrite state_render.
  unfold addExpense. rewrite state_typeForm, (number_input_value_numeric a Na).
  cbn [form_amount form_description form_category expenses].
  filled a. filled d. filled c. reflexivity.
Qed.

(** C4 (as amended).  With a snapshot that is not empty, the CSV export
    saves a text whose first row is the header
    [Date,Description,Category,Amount], followed by one comma-joined row per
    record in snapshot order; a category code of the catalogue shows as its
    label, any other code as it is, and the amount is printed by
    [toFixed(2)], which gives two decimal places for every finite amount
    below [10^21] in magnitude.  After [Add(25.50, Coffee, food)] and
    [Add(12.00, Bus, transport)] the rows are Bus, then Coffee, with amounts
    12.00 and 25.50. *)
Theorem exportToCSV_rows :
  (forall w, Snapshot w <> [] ->
     files (exportToCSV w)
     = files w ++ [BlobFile "cleaned_financial_data.csv" "text/csv"
                     ("Date,Description,Category,Amount" +:+ csv_rows (Snapshot w))]
     /\ toasts (exportToCSV w) = toasts w ++ [toast_success "CSV exported successfully"]
     /\ state (exportToCSV w) = state w)
  /\ (forall c, c ∈ categories -> category_label (value c) = label c)
  /\ (forall code, (forall c, c ∈ categories -> value c <> code) ->
        category_label code = code)
  /\ (forall x, below_1e21 x -> two_decimals (toFixed 2 x))
  /\ (forall now1 today1 now2 today2,
        files (exportToCSV (Add "12.00" "Bus" "transport" now2 today2
                              (Add "25.50" "Coffee" "food" now1 today1 (initial ∅))))
        = [BlobFile "cleaned_financial_data.csv" "text/csv"
             ("Date,Description,Category,Amount"
              +:+ LF +:+ today2 +:+ ",Bus,Transportation,12.00"
              +:+ LF +:+ today1 +:+ ",Coffee,Food & Dining,25.50")]).
Proof.
  assert (General : forall w, Snapshot w <> [] ->
     files (exportToCSV w)
     = files w ++ [BlobFile "cleaned_financial_data.csv" "text/csv"
                     ("Date,Description,Category,Amount" +:+ csv_rows (Snapshot w))]
     /\ toasts (exportToCSV w) = toasts w ++ [toast_success "CSV exported successfully"]
     /\ state (exportToCSV w) = state w).
  { intros w Hne. unfold exportToCSV, Snapshot in *.
    destruct (expenses (state w)) as [|e l] eqn:E; [congruence|].
    cbn [length Nat.eqb]. unfold seq. cbn [save_file show files toasts state].
    rewrite csvContent_rows. repeat split. }
  split; [exact General|].
  split; [exact category_label_known|].
  split; [exact category_label_unknown|].
  split; [exact toFixed_two_decimals|].
  intros now1 today1 now2 today2.
  match goal with |- files (exportToCSV ?w) = _ => set (w2 := w) end.
  assert (S2 : Snapshot w2
               = [ mkExpense (Date_now_toString now2) (parseFloat "12.00")
                     "Bus" "transport" today2;
                   mkExpense (Date_now_toString now1) (parseFloat "25.50")
                     "Coffee" "food" today1 ]).
  { unfold w2. rewrite !Snapshot_Add by (try discriminate; reflexivity). reflexivity. }
  assert (F2 : files w2 = []).
  { unfold w2, Add, on, seq. rewrite !files_render.
    unfold addExpense. rewrite !state_typeForm. reflexivity. }
  destruct (General w2) as [-> _]; [rewrite S2; discriminate|].
  rewrite F2, S2. cbn [app csv_rows]. unfold csv_line.
  cbn [date description category amount].
  rewrite !append_assoc. vm_compute. reflexivity.
Qed.

Lemma exportToCSV_rows_witness :
  files (exportToCSV two_records)
  = files two_records
    ++ [BlobFile "cleaned_financial_data.csv" "text/csv"
          ("Date,Description,Category,Amount" +:+ csv_rows (Snapshot two_records))]
  /\ toasts (exportToCSV two_records)
     = toasts two_records ++ [toast_success "CSV exported successfully"]
  /\ state (exportToCSV two_records) = state two_records.
Proof.
  apply (proj1 exportToCSV_rows two_records). vm_compute. discriminate.
Defined.

(** C4, as stated, fails: an amount entered as [1e21] is exported as
    [1e+21], which is not a numeral with two decimal places. *)
Lemma exportToCSV_sextillion_counterexample :
  files (exportToCSV sextillion)
  = [BlobFile "cleaned_financial_data.csv" "text/csv"
       ("Date,Description,Category,Amount" +:+ LF +:+ "1/1/2026,Yacht,Other,1e+21")]
  /\ toFixed 2 (parseFloat "1e21") = "1e+21"
  /\ ~ two_decimals "1e+21".
Proof.
  split; [vm_compute; reflexivity|]. split; [vm_compute; reflexivity|].
  exact exponent_notation_not_two_decimals.
Qed.

(** *** Spreadsheet *)

Lemma sheet_header_stable (data : list Expense) :
  fold_left
    (fun hdr o =>
       fold_left (fun hdr kv => if has_key (fst kv) hdr then hdr else hdr ++ [fst kv]) o hdr)
    (map excel_row data) sheet_columns
  = sheet_columns.
Proof.
  induction data as [|e data IH]; [reflexivity|].
  cbn [map fold_left]. exact IH.
Qed.

Lemma sheet_header_excel (e : Expense) (l : list Expense) :
  sheet_header (map excel_row (e :: l)) = sheet_columns.
Proof. unfold sheet_header. cbn [map fold_left]. apply sheet_header_stable. Qed.

Lemma json_to_sheet_excel (e : Expense) (l : list Expense) :
  json_to_sheet (map excel_row (e :: l))
  = map Some sheet_columns
    :: map (fun x => map Some (export_row x)) (e :: l).
Proof.
  unfold json_to_sheet. rewrite sheet_header_excel. f_equal.
  rewrite List.map_map. apply List.map_ext. intros x. reflexivity.
Qed.

Lemma rows_fit (l : list Expense) :
  forallb (forallb cell_fits) (map (fun x => map Some (export_row x)) l) = cells_fit l.
Proof.
  induction l as [|e l IH]; [reflexivity|].
  cbn [map forallb cells_fit]. rewrite IH. f_equal.
Qed.

(** The workbook of a list that is not empty can be written exactly when
    the cells of its records fit: those of the header do. *)
Lemma workbook_fits_excel (e : Expense) (l : list Expense) :
  workbook_fits (book_append_sheet book_new (json_to_sheet (map excel_row (e :: l))) "Expenses")
  = cells_fit (e :: l).
Proof.
  rewrite json_to_sheet_excel.
  unfold workbook_fits, book_append_sheet, book_new, sheet_fits.
  cbn [app forallb snd]. rewrite rows_fit, andb_true_r.
  replace (forallb cell_fits (map Some sheet_columns)) with true
    by (vm_compute; reflexivity).
  reflexivity.
Qed.

(** C5 (as amended).  With a snapshot that is not empty, the spreadsheet
    export saves a workbook with the single sheet [Expenses], whose four
    columns are Date, Description, Category and [Amount 💸], with one row per
    record in snapshot order, and reports success; unless a cell of a record
    has more than 32767 characters: [XLSX.writeFile] then throws, no file is
    saved and no toast is shown. *)
Theorem exportToExcel_sheet (w : World) :
  Snapshot w <> [] ->
  (cells_fit (Snapshot w) = true ->
   files (exportToExcel w)
   = files w
     ++ [XlsxFile "cleaned_financial_data.xlsx"
           [("Expenses",
             [Some "Date"; Some "Description"; Some "Category"; Some "Amount 💸"]
             :: map (fun e => [ Some (date e); Some (description e);
                                Some (category_label (category e));
                                Some (toFixed 2 (amount e)) ])
                    (Snapshot w))]]
   /\ toasts (exportToExcel w)
      = toasts w ++ [toast_success "Excel file exported successfully"]
   /\ uncaught (exportToExcel w) = uncaught w
   /\ state (exportToExcel w) = state w)
  /\ (cells_fit (Snapshot w) = false ->
      files (exportToExcel w) = files w
      /\ toasts (exportToExcel w) = toasts w
      /\ uncaught (exportToExcel w)
         = uncaught w ++ [Error "Text length must not exceed 32767 characters"]
      /\ state (exportToExcel w) = state w).
Proof.
  intros Hne. unfold exportToExcel, Snapshot in *.
  destruct (expenses (state w)) as [|e l] eqn:E; [congruence|].
  cbn [length Nat.eqb]. cbv zeta. rewrite workbook_fits_excel.
  split; intros ->.
  - unfold seq. cbn [save_file show files toasts uncaught state].
    rewrite json_to_sheet_excel. repeat split.
  - repeat split.
Qed.

Lemma exportToExcel_sheet_witness :
  files (exportToExcel two_records)
  = [XlsxFile "cleaned_financial_data.xlsx"
       [("Expenses",
         [ [Some "Date"; Some "Description"; Some "Category"; Some "Amount 💸"];
           [Some "1/2/2026"; Some "Bus"; Some "Transportation"; Some "12.00"];
           [Some "1/1/2026"; Some "Coffee"; Some "Food & Dining"; Some "25.50"] ])]].
Proof.
  destruct (exportToExcel_sheet two_records) as [H _].
  - vm_compute. discriminate.
  - destruct H as [H _]; [vm_compute; reflexivity|].
    rewrite H. vm_compute. reflexivity.
Defined.

(** C5, as stated, fails: the fourth column of the sheet is named
    [Amount 💸], not [Amount]; and for a record with a description of 32768
    characters the export saves no sheet at all. *)
Lemma exportToExcel_columns_counterexample :
  (exists rows,
     files (exportToExcel two_records)
     = [XlsxFile "cleaned_financial_data.xlsx"
          [("Expenses",
            [Some "Date"; Some "Description"; Some "Category"; Some "Amount 💸"] :: rows)]])
  /\ "Amount 💸" <> "Amount"
  /\ Count long_description = 1%nat
  /\ files (exportToExcel long_description) = []
  /\ toasts (exportToExcel long_description) = toasts long_description
  /\ uncaught (exportToExcel long_description)
     = [Error "Text length must not exceed 32767 characters"].
Proof.
  split; [eexists; vm_compute; reflexivity|].
  split; [discriminate|].
  vm_compute. repeat split.
Qed.

(** *** Validation *)

Lemma addExpense_rejected now today w :
  form_amount (state w) = "" \/ form_description (state w) = ""
  \/ form_category (state w) = "" ->
  addExpense now today w = show (toast_error "Please fill in all fields") w.
Proof.
  intros H. unfold addExpense.
  destruct (truthy (form_amount (state w))) eqn:Ta;
    destruct (truthy (form_description (state w))) eqn:Td;
    destruct (truthy (form_category (state w))) eqn:Tc; try reflexivity.
  exfalso. destruct H as [H|[H|H]]; apply truthy_false in H; congruence.
Qed.

Lemma addExpense_accepted now today w :
  form_amount (state w) <> "" -> form_description (state w) <> ""
  -> form_category (state w) <> "" ->
  toasts (addExpense now today w)
  = toasts w ++ [toast_success "Expense added successfully!"].
Proof.
  intros Ha Hd Hc. unfold addExpense.
  filled (form_amount (state w)). filled (form_description (state w)).
  filled (form_category (state w)). reflexivity.
Qed.

Lemma Snapshot_Add_rejected a d c now today w :
  numeric a = false \/ d = "" \/ c = "" ->
  Snapshot (Add a d c now today w) = Snapshot w.
Proof.
  intros H. rewrite <- number_input_value_empty in H.
  unfold Add, on, seq, Snapshot. rewrite state_render.
  rewrite addExpense_rejected by (rewrite state_typeForm; exact H).
  cbn [show state]. rewrite state_typeForm. reflexivity.
Qed.

(** C3.  [Add] fails validation, showing the error and leaving the list,
    Total and Count as they were, if and only if the amount is absent or not
    numeric, the description is empty or the category is unset: the number
    input reports text that is not a number as the empty string, and
    [addExpense] rejects a form with an empty field and no other.  An amount
    that gets through is a finite number. *)
Theorem Add_validation (now : Z) (today : string) (w : World) :
  ((form_amount (state w) = "" \/ form_description (state w) = ""
    \/ form_category (state w) = "")
   <-> validation_failure w (addExpense now today w))
  /\ (forall a d c,
        (numeric a = false \/ d = "" \/ c = "")
        <-> toasts (Add a d c now today w)
            = toasts w ++ [toast_error "Please fill in all fields"])
  /\ (forall a d c,
        numeric a = false \/ d = "" \/ c = "" ->
        Snapshot (Add a d c now today w) = Snapshot w
        /\ Total (Add a d c now today w) = Total w
        /\ Count (Add a d c now today w) = Count w)
  /\ numeric "" = false
  /\ (forall a, numeric a = true ->
        valid_floating_point_number a = true /\ isFinite (parseFloat a) = true).
Proof.
  assert (Decide : forall s : string, s = "" \/ s <> "").
  { intros s. destruct (decide (s = "")); tauto. }
  split; [|split; [|split; [|split]]].
  - split.
    + intros H. rewrite (addExpense_rejected now today w H).
      unfold validation_failure. repeat split.
    + intros (Ht & _).
      destruct (Decide (form_amount (state w))) as [|Ha]; [tauto|].
      destruct (Decide (form_description (state w))) as [|Hd]; [tauto|].
      destruct (Decide (form_category (state w))) as [|Hc]; [tauto|].
      rewrite (addExpense_accepted now today w Ha Hd Hc) in Ht.
      apply app_inv_head in Ht. discriminate.
  - intros a d c. rewrite <- number_input_value_empty.
    unfold Add, on, seq. rewrite toasts_render.
    rewrite <- (toasts_typeForm a d c w).
    pose proof (state_typeForm a d c w) as St.
    split.
    + intros H. rewrite addExpense_rejected; [reflexivity|].
      rewrite St. exact H.
    + intros Ht.
      destruct (Decide (number_input_value a)) as [|Ha]; [tauto|].
      destruct (Decide d) as [|Hd]; [tauto|].
      destruct (Decide c) as [|Hc]; [tauto|].
      rewrite addExpense_accepted in Ht by (rewrite St; assumption).
      apply app_inv_head in Ht. discriminate.
  - intros a d c H.
    unfold Total, Count. rewrite (Snapshot_Add_rejected a d c now today w H).
    repeat split.
  - reflexivity.
  - intros a H. unfold numeric in H. by apply andb_prop in H.
Qed.

Lemma Add_validation_witness :
  Snapshot (Add "abc" "Coffee" "food" 3000 "1/3/2026" two_records) = Snapshot two_records
  /\ Total (Add "abc" "Coffee" "food" 3000 "1/3/2026" two_records) = Total two_records
  /\ Count (Add "abc" "Coffee" "food" 3000 "1/3/2026" two_records) = Count two_records.
Proof.
  apply (Add_validation 3000 "1/3/2026" two_records). left. vm_compute. reflexivity.
Defined.

(** What the number input takes for a number, on examples. *)
Example numeric_examples :
  map numeric ["12.00"; "0"; "-3"; ".5"; "1e21"; "2.5E-3"]
  = [true; true; true; true; true; true]
  /\ map numeric [""; "abc"; "12abc"; "1,5"; " 5"; "+5"; "5."; "-"; "1e"; "1e400"; "Infinity"]
     = [false; false; false; false; false; false; false; false; false; false; false].
Proof. vm_compute. split; reflexivity. Qed.

(** *** A valid record *)






(** ** Identifiers *)

Lemma to_int_proper (z : Z) :
  Z.to_int z <> Decimal.Pos Decimal.Nil /\ Z.to_int z <> Decimal.Neg Decimal.Nil.
Proof.
  destruct z as [|p|p]; cbn; split; try discriminate;
    intros [= H]; by apply DecimalPos.Unsigned.to_uint_nonnil in H.
Qed.

Lemma decimal_inj (a b : Z) : decimal a = decimal b -> a = b.
Proof.
  unfold decimal. intros H. apply DecimalZ.to_int_inj.
  destruct (to_int_proper a) as [Ha1 Ha2], (to_int_proper b) as [Hb1 Hb2].
  pose proof (NilZero.isi _ Ha1 Ha2) as Ia.
  pose proof (NilZero.isi _ Hb1 Hb2) as Ib.
  rewrite H in Ia. congruence.
Qed.

Lemma ids_filter_elem (P : Expense -> Prop) `{!forall e, Decision (P e)}
    (l : list Expense) (x : string) :
  x ∈ ids (filter P l) -> x ∈ ids l.
Proof.
  induction l as [|e l IH]; [done|].
  rewrite filter_cons. cbn [ids map]. destruct (decide (P e)); cbn [ids map].
  - rewrite !elem_of_cons. intros [->|Hx]; [by left | right; by apply IH].
  - intros Hx. apply elem_of_cons. right. by apply IH.
Qed.

Lemma NoDup_ids_filter (P : Expense -> Prop) `{!forall e, Decision (P e)}
    (l : list Expense) :
  NoDup (ids l) -> NoDup (ids (filter P l)).
Proof.
  induction l as [|e l IH]; [done|].
  cbn [ids map]. intros [Hnot ND]%NoDup_cons.
  rewrite filter_cons. destruct (decide (P e)); [|by apply IH].
  cbn [ids map]. apply NoDup_cons. split; [|by apply IH].
  intros Hx. apply Hnot. by apply ids_filter_elem in Hx.
Qed.

Lemma Snapshot_Add_cases a d c now today w :
  Snapshot (Add a d c now today w) = Snapshot w
  \/ Snapshot (Add a d c now today w)
     = mkExpense (Date_now_toString now) (parseFloat a) d c today :: Snapshot w.
Proof.
  destruct (numeric a) eqn:Na;
    [|left; apply Snapshot_Add_rejected; tauto].
  destruct (decide (d = "")) as [Hd|Hd];
    [left; apply Snapshot_Add_rejected; tauto|].
  destruct (decide (c = "")) as [Hc|Hc];
    [left; apply Snapshot_Add_rejected; tauto|].
  right. by apply Snapshot_Add.
Qed.

Lemma Snapshot_Reset w : Snapshot (Reset w) = [].
Proof. unfold Reset, on, seq, Snapshot. rewrite state_render. reflexivity. Qed.

(** C9 (as amended).  Starting from a list with unique ids, any sequence of
    Add, Delete and Reset whose Adds are pressed at pairwise distinct clock
    readings, none of which prints as an id already in the list, leaves the
    ids unique. *)
Theorem ids_unique_distinct_clock (ops : list op) (w : World) :
  NoDup (ids (Snapshot w)) ->
  NoDup (add_times ops) ->
  (forall t, t ∈ add_times ops -> Date_now_toString t ∉ ids (Snapshot w)) ->
  NoDup (ids (Snapshot (run ops w))).
Proof.
  revert w. induction ops as [|o ops IH]; intros w ND NT Fresh; [exact ND|].
  change (run (o :: ops) w) with (run ops (run_op o w)).
  destruct o as [a d c now today|id0|]; cbn [add_times run_op] in *.
  - apply NoDup_cons in NT as [Hnow NT].
    destruct (Snapshot_Add_cases a d c now today w) as [E|E].
    + apply IH; rewrite ?E; [exact ND | exact NT |].
      intros t Ht. apply Fresh. by right.
    + apply IH; rewrite ?E; cbn [ids map id]; [| exact NT |].
      * apply NoDup_cons. split; [|exact ND]. apply Fresh. by left.
      * intros t Ht. apply not_elem_of_cons. split.
        -- intros Heq. apply decimal_inj in Heq. by subst.
        -- apply Fresh. by right.
  - apply IH; rewrite ?Snapshot_Delete; [by apply NoDup_ids_filter | exact NT |].
    intros t Ht Hx. apply ids_filter_elem in Hx. by apply (Fresh t).
  - apply IH; rewrite ?Snapshot_Reset; [apply NoDup_nil_2 | exact NT |].
    intros t Ht. apply not_elem_of_nil.
Qed.

Lemma ids_unique_distinct_clock_witness :
  NoDup (ids (Snapshot (run [ OpAdd "25.50" "Coffee" "food" 1000 "1/1/2026";
                             OpAdd "12.00" "Bus" "transport" 2000 "1/2/2026";
                             OpDelete "1000";
                             OpAdd "3" "Tea" "food" 3000 "1/3/2026" ]
                          (initial ∅)))).
Proof.
  apply ids_unique_distinct_clock.
  - compute_done.
  - compute_done.
  - intros t Ht. cbn. apply not_elem_of_nil.
Defined.

(** C9, as stated, fails: two Adds pressed at the same reading of the clock
    give two records with the same id. *)
Lemma ids_same_millisecond_counterexample :
  ids (Snapshot (run [ OpAdd "5" "Bus" "transport" 1000 "1/1/2026";
                       OpAdd "3" "Tea" "food" 1000 "1/1/2026" ]
                    (initial ∅)))
  = ["1000"; "1000"]
  /\ ~ NoDup (ids (Snapshot (run [ OpAdd "5" "Bus" "transport" 1000 "1/1/2026";
                                   OpAdd "3" "Tea" "food" 1000 "1/1/2026" ]
                                (initial ∅)))).
Proof. split; [vm_compute; reflexivity | compute_done]. Qed.

(** ** Persistence *)

Lemma stringify_no_expenses : JSON_stringify (json_of_expenses []) = "[]".
Proof. reflexivity. Qed.

Lemma parse_no_expenses : JSON_parse "[]" = Some (JArray []).
Proof. vm_compute. reflexivity. Qed.

Lemma mount_stored (storage : gmap string string) (s : string) (v : json)
    (l : list Expense) :
  storage !! "expenses" = Some s -> s <> "" ->
  JSON_parse s = Some v -> expenses_of_json v = Some l ->
  exists w, mount storage = Running w /\ Snapshot w = l.
Proof.
  intros Hs Hne Hp Hl. unfold mount, load_effect, localStorage_getItem.
  cbn [initial localStorage]. rewrite Hs. filled s.
  rewrite Hp, Hl. eexists. split; [reflexivity|].
  unfold Snapshot. rewrite state_render. reflexivity.
Qed.





(** JSON text that is not a list of records is handed to [setExpenses] as
    it is; so is a list whose objects do not have exactly the members of a
    record in the order the component writes them. *)
Example mount_not_a_list :
  (exists v, mount {[ "expenses" := "42" ]} = IllTyped v)
  /\ (exists v, mount {[ "expenses" := amount_first_text ]} = IllTyped v).
Proof. split; eexists; vm_compute; reflexivity. Qed.

(** A session restart brings back the list that was saved. *)
Example reload_two_records :
  exists w, mount (localStorage two_records) = Running w
            /\ Snapshot w = Snapshot two_records.
Proof. eexists. vm_compute. split; reflexivity. Qed.

(** *** Reset *)

Lemma Reset_handler_removes_key (w : World) :
  localStorage (resetAllExpenses w) !! "expenses" = None.
Proof. apply lookup_delete_eq. Qed.

(** C2.  [Reset] empties the list and makes Total zero, and a fresh load
    after it yields the empty list; but the key is not absent afterwards:
    the handler removes it, and the render that follows the handler stores
    the text of the empty list under it again. *)
Theorem Reset_stores_empty_list (w : World) :
  Snapshot (Reset w) = []
  /\ Total (Reset w) = zero
  /\ localStorage (resetAllExpenses w) !! "expenses" = None
  /\ localStorage (Reset w) !! "expenses" = Some "[]"
  /\ (exists w', mount (localStorage (Reset w)) = Running w' /\ Snapshot w' = []).
Proof.
  assert (Stored : localStorage (Reset w) !! "expenses" = Some "[]").
  { unfold Reset, on, seq. rewrite render_saved by reflexivity. reflexivity. }
  split; [apply Snapshot_Reset|].
  split; [unfold Total; rewrite Snapshot_Reset; reflexivity|].
  split; [apply Reset_handler_removes_key|].
  split; [exact Stored|].
  apply (mount_stored _ "[]" (JArray []) []);
    [exact Stored | discriminate | apply parse_no_expenses | reflexivity].
Qed.

(** The same on a list of two records. *)
Example Reset_two_records :
  localStorage (Reset two_records) !! "expenses" = Some "[]"
  /\ Snapshot (Reset two_records) = [].
Proof. vm_compute. split; reflexivity. Qed.

(** ** The scenario of the specification *)

(** After [Add(25.50, Coffee, food)] and [Add(12.00, Bus, transport)] the
    snapshot is Bus, Coffee; Total shows as 37.50 and Count is 2; a new
    session finds the same list. *)
Example scenario_two_records :
  map description (Snapshot two_records) = ["Bus"; "Coffee"]
  /\ map (fun e => toFixed 2 (amount e)) (Snapshot two_records) = ["12.00"; "25.50"]
  /\ toFixed 2 (Total two_records) = "37.50"
  /\ Count two_records = 2%nat.
Proof. vm_compute. repeat split. Qed.

(** * Further properties of the component *)

(** ** The stored copy *)

Lemma localStorage_render_other (k : string) (w : World) :
  k <> "expenses" -> localStorage (render w) !! k = localStorage w !! k.
Proof.
  intros Hk. unfold render. destruct (expenses_set w); [|reflexivity].
  cbn [save_effect localStorage_setItem localStorage].
  by rewrite lookup_insert_ne.
Qed.

Lemma form_typeForm a d c w :
  form_amount (state (typeForm a d c w)) = number_input_value a
  /\ form_description (state (typeForm a d c w)) = d
  /\ form_category (state (typeForm a d c w)) = c.
Proof. rewrite state_typeForm. repeat split. Qed.

Lemma localStorage_typeForm_other a d c k w :
  k <> "expenses" -> localStorage (typeForm a d c w) !! k = localStorage w !! k.
Proof.
  intros Hk. unfold typeForm, on, seq.
  repeat (rewrite localStorage_render_other by exact Hk;
          cbn [setAmount setDescription setCategory with_state localStorage]).
  reflexivity.
Qed.

Lemma localStorage_addExpense now today w :
  localStorage (addExpense now today w) = localStorage w.
Proof.
  unfold addExpense.
  destruct (negb (truthy (form_amount (state w))) || _ || _); reflexivity.
Qed.

Lemma localStorage_run_op_other (o : op) (k : string) (w : World) :
  k <> "expenses" -> localStorage (run_op o w) !! k = localStorage w !! k.
Proof.
  intros Hk. destruct o as [a d c now today|id0|]; cbn [run_op].
  - unfold Add, on, seq. rewrite localStorage_render_other by exact Hk.
    rewrite localStorage_addExpense. by apply localStorage_typeForm_other.
  - unfold Delete, on, seq. by rewrite localStorage_render_other.
  - unfold Reset, on, seq. rewrite localStorage_render_other by exact Hk.
    cbn [resetAllExpenses seq show localStorage_removeItem setExpenses localStorage].
    by rewrite lookup_delete_ne.
Qed.

(** The component reads and writes the key [expenses] only: whatever else
    the storage holds is the same after any sequence of operations, and
    after a session start that succeeds. *)
Theorem other_keys_untouched (k : string) :
  k <> "expenses" ->
  (forall ops w, localStorage (run ops w) !! k = localStorage w !! k)
  /\ (forall storage w, mount storage = Running w -> localStorage w !! k = storage !! k).
Proof.
  intros Hk. split.
  - induction ops as [|o ops IH]; intros w; [reflexivity|].
    change (run (o :: ops) w) with (run ops (run_op o w)).
    rewrite IH. by apply localStorage_run_op_other.
  - intros storage w. unfold mount.
    destruct (load_effect (initial storage)) as [w1| |] eqn:L; try discriminate.
    intros [= <-]. rewrite localStorage_render_other by exact Hk.
    cbn [save_effect localStorage_setItem localStorage].
    rewrite lookup_insert_ne by congruence.
    unfold load_effect in L.
    destruct (localStorage_getItem "expenses" (initial storage)) as [saved|];
      [|by injection L as <-].
    destruct (truthy saved); [|by injection L as <-].
    destruct (JSON_parse saved) as [v|]; [|discriminate].
    destruct (expenses_of_json v); [|discriminate].
    by injection L as <-.
Qed.

Lemma other_keys_untouched_witness :
  localStorage
    (run [OpAdd "5" "Bus" "transport" 1000 "1/1/2026"; OpReset]
         (initial {[ "theme" := "dark" ]})) !! "theme"
  = Some "dark".
Proof.
  rewrite (proj1 (other_keys_untouched "theme" ltac:(discriminate))).
  reflexivity.
Defined.

Lemma mirrored_render (w : World) :
  expenses_set w = true -> mirrored (render w).
Proof.
  intros E. split; [apply expenses_set_render|].
  rewrite render_saved by exact E. unfold Snapshot. by rewrite state_render.
Qed.

Lemma mirrored_idle (handler : action) (w : World) :
  mirrored w ->
  expenses_set (handler w) = expenses_set w ->
  localStorage (handler w) = localStorage w ->
  Snapshot (handler w) = Snapshot w ->
  mirrored (on handler w).
Proof.
  intros [E M] HE HL HS. unfold on, seq.
  rewrite render_idle by congruence.
  split; [congruence|]. by rewrite HL, HS.
Qed.

Lemma mirrored_typeForm a d c w : mirrored w -> mirrored (typeForm a d c w).
Proof.
  intros M. unfold typeForm, seq.
  repeat (apply mirrored_idle; [|reflexivity ..]). exact M.
Qed.

Lemma mirrored_run_op (o : op) (w : World) : mirrored w -> mirrored (run_op o w).
Proof.
  intros M. destruct o as [a d c now today|id0|]; cbn [run_op].
  - unfold Add, seq. apply (mirrored_typeForm a d c) in M.
    set (w1 := typeForm a d c w) in *.
    destruct (decide (form_amount (state w1) = "" \/ form_description (state w1) = ""
                      \/ form_category (state w1) = "")) as [R|A].
    + apply mirrored_idle; [exact M | by rewrite addExpense_rejected ..].
    + unfold on, seq. apply mirrored_render. unfold addExpense.
      destruct (truthy (form_amount (state w1))) eqn:Ta;
        [|exfalso; apply A; apply truthy_false in Ta; tauto].
      destruct (truthy (form_description (state w1))) eqn:Td;
        [|exfalso; apply A; apply truthy_false in Td; tauto].
      destruct (truthy (form_category (state w1))) eqn:Tc;
        [|exfalso; apply A; apply truthy_false in Tc; tauto].
      reflexivity.
  - apply mirrored_render. reflexivity.
  - apply mirrored_render. reflexivity.
Qed.

(** After a session start that succeeds, and from then on after every Add,
    Delete and Reset, the key [expenses] holds the JSON text of the list in
    memory. *)
Theorem storage_mirrors_list (storage : gmap string string) (w : World) (ops : list op) :
  mount storage = Running w -> mirrored (run ops w).
Proof.
  intros Hm.
  assert (M : mirrored w).
  { unfold mount in Hm.
    destruct (load_effect (initial storage)) as [w1| |] eqn:L; try discriminate.
    injection Hm as <-. unfold load_effect in L.
    assert (Cases : w1 = initial storage
                    \/ exists l, w1 = setExpenses l (initial storage)).
    { destruct (localStorage_getItem "expenses" (initial storage)) as [saved|];
        [|left; congruence].
      destruct (truthy saved); [|left; congruence].
      destruct (JSON_parse saved) as [v|]; [|discriminate].
      destruct (expenses_of_json v) as [l|]; [|discriminate].
      right. exists l. congruence. }
    destruct Cases as [-> | [l ->]].
    - rewrite render_idle by reflexivity. split; [reflexivity|].
      cbn [save_effect localStorage_setItem localStorage initial].
      apply lookup_insert_eq.
    - apply mirrored_render. reflexivity. }
  clear Hm. revert w M. induction ops as [|o ops IH]; intros w M; [exact M|].
  change (run (o :: ops) w) with (run ops (run_op o w)).
  apply IH. by apply mirrored_run_op.
Qed.

Lemma storage_mirrors_list_witness :
  mirrored (run [ OpAdd "25.50" "Coffee" "food" 1000 "1/1/2026";
                  OpAdd "" "Bus" "transport" 2000 "1/2/2026";
                  OpDelete "1000" ]
                fresh_session).
Proof. apply (storage_mirrors_list ∅). reflexivity. Defined.

(** ** The form *)

Lemma form_after_Add a d c now today w :
  form_amount (state (Add a d c now today w)) = ""
  \/ form_description (state (Add a d c now today w)) = ""
  \/ form_category (state (Add a d c now today w)) = "".
Proof.
  unfold Add, on, seq. rewrite state_render.
  pose proof (state_typeForm a d c w) as St. revert St.
  generalize (number_input_value a). intros v St.
  destruct (decide (v = "" \/ d = "" \/ c = "")) as [R|A].
  - rewrite addExpense_rejected by (rewrite St; exact R).
    cbn [show state]. rewrite St. exact R.
  - left. unfold addExpense. rewrite St.
    cbn [form_amount form_description form_category expenses].
    destruct (truthy v) eqn:Ta; [|exfalso; apply A; apply truthy_false in Ta; tauto].
    destruct (truthy d) eqn:Td; [|exfalso; apply A; apply truthy_false in Td; tauto].
    destruct (truthy c) eqn:Tc; [|exfalso; apply A; apply truthy_false in Tc; tauto].
    reflexivity.
Qed.

(** Pressing the Add button a second time, without typing anything in
    between, never adds a record: an accepted Add empties the form and a
    rejected one leaves the empty field empty, so the second press fails
    validation. *)
Theorem second_press_rejected (a d c : string) (now now' : Z) (today today' : string)
    (w : World) :
  Snapshot (on (addExpense now' today') (Add a d c now today w))
  = Snapshot (Add a d c now today w)
  /\ toasts (on (addExpense now' today') (Add a d c now today w))
     = toasts (Add a d c now today w) ++ [toast_error "Please fill in all fields"].
Proof.
  pose proof (form_after_Add a d c now today w) as F.
  set (w1 := Add a d c now today w) in *.
  unfold on, seq, Snapshot. rewrite state_render, toasts_render.
  rewrite (addExpense_rejected now' today' _ F). split; reflexivity.
Qed.

(** ** Delete, again *)

(** Deleting the record that an Add has just put in, by its id, brings the
    list back, provided no older record has the id the new one was given. *)
Theorem Add_then_Delete (a d c : string) (now : Z) (today : string) (w : World) :
  Date_now_toString now ∉ ids (Snapshot w) ->
  Snapshot (Delete (Date_now_toString now) (Add a d c now today w)) = Snapshot w.
Proof.
  intros Fresh. rewrite Snapshot_Delete.
  destruct (Snapshot_Add_cases a d c now today w) as [-> | ->].
  - by apply filter_absent.
  - rewrite filter_cons_False by (cbn [id]; intros H; by apply H).
    by apply filter_absent.
Qed.

Lemma Add_then_Delete_witness :
  Snapshot (Delete (Date_now_toString 3000)
              (Add "3" "Tea" "food" 3000 "1/3/2026" two_records))
  = Snapshot two_records.
Proof. apply Add_then_Delete. compute_done. Defined.

Lemma localStorage_Delete (id0 : string) (w : World) :
  localStorage (Delete id0 w)
  = <["expenses" := JSON_stringify (json_of_expenses (Snapshot (Delete id0 w)))]>
      (localStorage w).
Proof. rewrite Snapshot_Delete. reflexivity. Qed.

(** Deleting twice by the same id is deleting once, and two deletions give
    the same list and the same stored copy in either order. *)
Theorem Delete_idempotent_commutes (i j : string) (w : World) :
  Snapshot (Delete i (Delete i w)) = Snapshot (Delete i w)
  /\ localStorage (Delete i (Delete i w)) = localStorage (Delete i w)
  /\ Snapshot (Delete i (Delete j w)) = Snapshot (Delete j (Delete i w))
  /\ localStorage (Delete i (Delete j w)) = localStorage (Delete j (Delete i w)).
Proof.
  assert (Twice : Snapshot (Delete i (Delete i w)) = Snapshot (Delete i w)).
  { rewrite !Snapshot_Delete, list_filter_filter.
    apply list_filter_iff. tauto. }
  assert (Swap : Snapshot (Delete i (Delete j w)) = Snapshot (Delete j (Delete i w))).
  { rewrite !Snapshot_Delete, !list_filter_filter.
    apply list_filter_iff. tauto. }
  split; [exact Twice|]. split; [|split; [exact Swap|]].
  - rewrite (localStorage_Delete i (Delete i w)), Twice, (localStorage_Delete i w).
    apply insert_insert_eq.
  - rewrite (localStorage_Delete i (Delete j w)), (localStorage_Delete j (Delete i w)).
    rewrite Swap, (localStorage_Delete j w), (localStorage_Delete i w).
    by rewrite !insert_insert_eq.
Qed.

(** ** The view *)




(** With two records of one id the hooks do not determine the rows. *)
Example rows_same_millisecond :
  ids (Snapshot same_millisecond) = ["1000"; "1000"]
  /\ items (view (state same_millisecond)) = None.
Proof. vm_compute. split; reflexivity. Qed.

(** ** Exports, again *)

(** No export touches the hooks or the storage.  The CSV and the PDF export
    always come to their end: each shows exactly one toast, and saves
    exactly one file when the page shows the export buttons and none when it
    does not.  So does the spreadsheet export as long as every cell fits;
    with a list that is not empty and a cell of more than 32767 characters
    it ends in the exception of [XLSX.writeFile], with no toast and no
    file. *)
Theorem exports_read_only (w : World) :
  (read_only_export w (exportToCSV w) /\ export_finished w (exportToCSV w))
  /\ (read_only_export w (exportToPDF w) /\ export_finished w (exportToPDF w))
  /\ read_only_export w (exportToExcel w)
  /\ (Snapshot w = [] \/ cells_fit (Snapshot w) = true ->
      export_finished w (exportToExcel w))
  /\ (Snapshot w <> [] -> cells_fit (Snapshot w) = false ->
      export_thrown (Error "Text length must not exceed 32767 characters")
        w (exportToExcel w)).
Proof.
  unfold read_only_export, export_finished, export_thrown,
    exportToCSV, exportToExcel, exportToPDF, view, Snapshot.
  cbn [buttons_shown].
  destruct (expenses (state w)) as [|e l] eqn:E; cbn [length Nat.eqb negb].
  - cbn [show state localStorage expenses_set toasts files uncaught].
    rewrite !length_app. cbn [length].
    repeat split; try lia; congruence.
  - cbv zeta. rewrite workbook_fits_excel. unfold seq.
    cbn [save_file show state localStorage expenses_set toasts files uncaught].
    rewrite !length_app. cbn [length].
    split; [repeat split; try lia; eexists; reflexivity|].
    split; [repeat split; try lia; eexists; reflexivity|].
    destruct (cells_fit (e :: l));
      cbn [save_file show throw state localStorage expenses_set toasts files uncaught].
    + rewrite !length_app. cbn [length].
      repeat split; try lia; try congruence. eexists; reflexivity.
    + split; [repeat split|]. split; [|repeat split].
      intros [H|H]; congruence.
Qed.



(** ** Categories on the page *)

Lemma find_category_known (c : Category) :
  c ∈ categories ->
  List.find (fun x => String.eqb (value x) (value c)) categories = Some c.
Proof.
  unfold categories. rewrite !elem_of_cons, elem_of_nil.
  intros H. repeat (destruct H as [->|H]; [reflexivity|]). contradiction.
Qed.

Lemma find_category_unknown (code : string) :
  (forall c, c ∈ categories -> value c <> code) ->
  List.find (fun x => String.eqb (value x) code) categories = None.
Proof.
  intros H. destruct (List.find _ categories) as [c|] eqn:F; [|reflexivity].
  apply List.find_some in F as [HIn E].
  apply String.eqb_eq in E. apply list_elem_of_In in HIn. by apply H in HIn.
Qed.

Lemma category_known_or_not (code : string) :
  (exists c, c ∈ categories /\ value c = code)
  \/ (forall c, c ∈ categories -> value c <> code).
Proof.
  destruct (List.find (fun x => String.eqb (value x) code) categories) as [c|] eqn:F.
  - left. apply List.find_some in F as [HIn E]. exists c.
    split; [by apply list_elem_of_In | by apply String.eqb_eq].
  - right. intros c HIn E. apply list_elem_of_In in HIn.
    apply (List.find_none _ _ F) in HIn. cbn in HIn.
    apply String.eqb_neq in HIn. congruence.
Qed.

(** The dot of a listed record always has the colour of a category of the
    catalogue.  For a category code of the catalogue the list shows that
    category's colour and label, the label the exports print; for any other
    code the list shows the colour of [other] and no label, while the
    exports print the code itself. *)
Theorem listed_category (e : Expense) :
  (exists c, c ∈ categories
             /\ dot (item_of e) = "w-4 h-4 rounded-full bg-" +:+ color c)
  /\ ((exists c, c ∈ categories /\ value c = category e
                 /\ getCategoryColor (category e) = color c
                 /\ shown_label (item_of e) = Some (label c)
                 /\ category_label (category e) = label c)
      \/ ((forall c, c ∈ categories -> value c <> category e)
          /\ getCategoryColor (category e) = "category-other"
          /\ shown_label (item_of e) = None
          /\ category_label (category e) = category e)).
Proof.
  assert (Cases :
    (exists c, c ∈ categories /\ value c = category e
               /\ getCategoryColor (category e) = color c
               /\ shown_label (item_of e) = Some (label c)
               /\ category_label (category e) = label c)
    \/ ((forall c, c ∈ categories -> value c <> category e)
        /\ getCategoryColor (category e) = "category-other"
        /\ shown_label (item_of e) = None
        /\ category_label (category e) = category e)).
  { destruct (category_known_or_not (category e)) as [(c & HIn & Hc)|Hno].
    - left. exists c. split; [exact HIn|]. split; [exact Hc|].
      unfold getCategoryColor, item_of. cbn [shown_label].
      rewrite <- Hc, (find_category_known c HIn).
      repeat split. by apply category_label_known.
    - right. split; [exact Hno|].
      unfold getCategoryColor, item_of. cbn [shown_label].
      rewrite (find_category_unknown _ Hno).
      repeat split. by apply category_label_unknown. }
  split; [|exact Cases].
  unfold item_of. cbn [dot].
  destruct Cases as [(c & HIn & _ & -> & _)|(_ & -> & _)].
  - by exists c.
  - exists (mkCategory "other" "Other" "category-other").
    split; [|reflexivity]. unfold categories. set_solver.
Qed.

(** ** The total *)

Lemma add_NaN_l (x : number) : add NaN x = NaN.
Proof. destruct x; reflexivity. Qed.

Lemma add_NaN_r (x : number) : add x NaN = NaN.
Proof. destruct x; reflexivity. Qed.

Lemma fold_add_NaN (l : list Expense) :
  fold_left (fun sum expense => add sum (amount expense)) l NaN = NaN.
Proof.
  induction l as [|e l IH]; [reflexivity|].
  cbn [fold_left]. by rewrite add_NaN_l.
Qed.

Lemma fold_add_mentions_NaN (l : list Expense) (x : number) :
  mentions_NaN l ->
  fold_left (fun sum expense => add sum (amount expense)) l x = NaN.
Proof.
  revert x. induction l as [|e l IH]; intros x (e0 & HIn & HN).
  - by apply elem_of_nil in HIn.
  - cbn [fold_left]. apply elem_of_cons in HIn as [<-|HIn].
    + rewrite HN, add_NaN_r. apply fold_add_NaN.
    + apply IH. by exists e0.
Qed.

(** One record whose amount is NaN makes the total NaN, whatever the other
    amounts are, and the page then shows the total as NaN. *)
Theorem NaN_amount_spoils_Total (w : World) :
  mentions_NaN (Snapshot w) ->
  Total w = NaN /\ total_text (view (state w)) = "💸 NaN".
Proof.
  intros H. unfold Total, totalExpenses, view. cbn [total_text].
  fold (Snapshot w). unfold totalExpenses.
  rewrite (fold_add_mentions_NaN _ _ H). split; reflexivity.
Qed.

Lemma NaN_amount_spoils_Total_witness :
  Total lunch_not_a_number = NaN
  /\ total_text (view (state lunch_not_a_number)) = "💸 NaN".
Proof.
  apply NaN_amount_spoils_Total.
  exists (mkExpense "3000" NaN "Lunch" "food" "1/3/2026").
  split; [apply elem_of_cons; by left | reflexivity].
Defined.

(** ** The list over a session *)

Lemma ids_Add_sublist a d c now today w :
  sublist (ids (Snapshot (Add a d c now today w)))
          (Date_now_toString now :: ids (Snapshot w)).
Proof.
  destruct (Snapshot_Add_cases a d c now today w) as [-> | ->].
  - by apply sublist_cons.
  - cbn [ids map id]. by apply sublist_skip.
Qed.

Lemma ids_filter_sublist (P : Expense -> Prop) `{!forall e, Decision (P e)}
    (l : list Expense) :
  sublist (ids (filter P l)) (ids l).
Proof.
  induction l as [|e l IH]; [done|].
  rewrite filter_cons. destruct (decide (P e)); cbn [ids map].
  - by apply sublist_skip.
  - by apply sublist_cons.
Qed.

Lemma ids_run_sublist (ops : list op) (w : World) :
  sublist (ids (Snapshot (run ops w)))
          (rev (map Date_now_toString (add_times ops)) ++ ids (Snapshot w)).
Proof.
  revert w. induction ops as [|o ops IH]; intros w; [done|].
  change (run (o :: ops) w) with (run ops (run_op o w)).
  etrans; [apply IH|].
  destruct o as [a d c now today|id0|]; cbn [add_times run_op map rev].
  - rewrite <- app_assoc. apply sublist_app; [done|]. apply ids_Add_sublist.
  - apply sublist_app; [done|]. rewrite Snapshot_Delete. apply ids_filter_sublist.
  - apply sublist_app; [done|]. rewrite Snapshot_Reset. apply sublist_nil_l.
Qed.

(** Most recent first: in a session that started with an empty list, the
    ids in the list are clock readings of Adds of the session, in the
    reverse of the order in which the Adds were pressed. *)
Theorem most_recent_first (ops : list op) (storage : gmap string string) :
  sublist (ids (Snapshot (run ops (initial storage))))
          (rev (map Date_now_toString (add_times ops))).
Proof.
  pose proof (ids_run_sublist ops (initial storage)) as H.
  cbn [initial Snapshot state expenses ids map] in H.
  by rewrite app_nil_r in H.
Qed.

Lemma filled_in_run_op (o : op) (w : World) :
  Forall filled_in (Snapshot w) -> Forall filled_in (Snapshot (run_op o w)).
Proof.
  intros F. destruct o as [a d c now today|id0|]; cbn [run_op].
  - destruct (decide (numeric a = false \/ d = "" \/ c = "")) as [R|A].
    + by rewrite Snapshot_Add_rejected.
    + rewrite Snapshot_Add by (try apply not_false_is_true; tauto).
      apply Forall_cons. split; [|exact F]. split; cbn; tauto.
  - rewrite Snapshot_Delete. rewrite Forall_forall in F |- *.
    intros e He. apply list_elem_of_filter in He as [_ He]. by apply F.
  - rewrite Snapshot_Reset. apply Forall_nil_2.
Qed.


(** Add, Delete and Reset keep the list free of records with an empty
    description or an empty category. *)
Theorem records_filled_in (ops : list op) (w : World) :
  Forall filled_in (Snapshot w) -> Forall filled_in (Snapshot (run ops w)).
Proof.
  revert w. induction ops as [|o ops IH]; intros w F; [exact F|].
  change (run (o :: ops) w) with (run ops (run_op o w)).
  apply IH. by apply filled_in_run_op.
Qed.

Lemma records_filled_in_witness :
  Forall filled_in
    (Snapshot (run [ OpAdd "3" "" "food" 3000 "1/3/2026";
                     OpAdd "4" "Tea" "food" 4000 "1/4/2026";
                     OpDelete "1000" ]
                   two_records)).
Proof.
  apply records_filled_in. vm_compute.
  repeat (apply Forall_cons; split; [split; discriminate|]). apply Forall_nil_2.
Defined.



(** ** The stored text reads back *)

Lemma chars_app (a b : string) :
  list_ascii_of_string (a +:+ b) = list_ascii_of_string a ++ list_ascii_of_string b.
Proof.
  induction a as [|x a IH]; [reflexivity|].
  change (x :: list_ascii_of_string (a +:+ b)
          = x :: (list_ascii_of_string a ++ list_ascii_of_string b)).
  by rewrite IH.
Qed.

Lemma read_low_escape (acc : list ascii) (h3 h4 : ascii) (hi : Z) (t : list ascii) :
  hex4 "0" "0" h3 h4 = Some hi -> hi < 128 ->
  read_string acc ("\"%char :: "u"%char :: "0"%char :: "0"%char :: h3 :: h4 :: t)
  = read_string (chr hi :: acc) t.
Proof.
  intros Hh Hlt.
  assert (U : rev (utf8 hi) ++ acc = chr hi :: acc).
  { unfold utf8. destruct (Z.ltb_spec hi 128); [reflexivity | lia]. }
  set (R := read_string (chr hi :: acc)).
  cbn -[hex4 utf8 Z.leb]. rewrite Hh, U. fold R.
  destruct t as [|b [|u [|l1 [|l2 [|l3 [|l4 r11]]]]]]; try reflexivity.
  destruct (hex4 l1 l2 l3 l4); [|reflexivity].
  destruct (Z.leb_spec 55296 hi); [lia|].
  by rewrite !andb_false_r.
Qed.

(** One character of a quoted string reads back as itself. *)
Lemma read_quoted_char (c : ascii) (r : string) (acc tail : list ascii) :
  read_string acc (list_ascii_of_string (quote_chars (String c r)) ++ tail)
  = read_string (c :: acc) (list_ascii_of_string (quote_chars r) ++ tail).
Proof.
  destruct c as [[] [] [] [] [] [] [] []];
    match goal with
    | |- read_string _ (list_ascii_of_string (quote_chars (String ?c _)) ++ _) = _ =>
        first [ reflexivity
              | exact (read_low_escape acc (hex_digit (byte c / 16))
                         (hex_digit (byte c mod 16)) (byte c) _ eq_refl eq_refl) ]
    end.
Qed.

Lemma read_quoted (s : string) (acc rest : list ascii) :
  read_string acc (list_ascii_of_string (quote_chars s) ++ chr 34 :: rest)
  = Some (string_of_list_ascii (rev acc ++ list_ascii_of_string s), rest).
Proof.
  revert acc. induction s as [|c s IH]; intros acc.
  - cbn. by rewrite app_nil_r.
  - rewrite read_quoted_char, IH. cbn [rev list_ascii_of_string].
    by rewrite <- app_assoc.
Qed.

Lemma chars_quote (s : string) :
  list_ascii_of_string (quote s)
  = chr 34 :: list_ascii_of_string (quote_chars s) ++ [chr 34].
Proof. unfold quote. rewrite !chars_app. reflexivity. Qed.

(** A quoted string, read as a JSON value, is the string. *)
Lemma read_value_string (f : nat) (s : string) (rest : list ascii) :
  read_value (S f) (list_ascii_of_string (quote s) ++ rest) = Some (JString s, rest).
Proof.
  rewrite chars_quote. cbn [app]. rewrite <- app_assoc. cbn [app].
  change (match read_string [] (list_ascii_of_string (quote_chars s) ++ chr 34 :: rest) with
          | Some (s0, rest0) => Some (JString s0, rest0)
          | None => None
          end = Some (JString s, rest)).
  rewrite read_quoted. cbn [rev app]. by rewrite string_of_list_ascii_of_string.
Qed.

(** *** Numbers *)

Lemma read_number_stages (cs : list ascii) :
  read_number cs
  = let '(neg, cs1) := number_sign cs in
    match number_int cs1 with
    | None => None
    | Some (ip, cs2) =>
        match number_frac ip cs2 with
        | None => None
        | Some (m, flen, cs3) => number_exp neg m flen cs3
        end
    end.
Proof. reflexivity. Qed.

Section Comma.

Variable rest : list ascii.

Let more (r : list ascii) : list ascii := r ++ ","%char :: rest.

Lemma read_digits_comma (l : list ascii) (acc len : Z) :
  read_digits acc len (more l)
  = let '(v, n, r) := read_digits acc len l in (v, n, more r).
Proof.
  revert acc len. induction l as [|c l IH]; intros acc len; [reflexivity|].
  cbn [more app read_digits]. destruct (digit_value c); [apply IH | reflexivity].
Qed.

Lemma number_int_comma (cs1 : list ascii) :
  number_int (more cs1)
  = match number_int cs1 with Some (v, r) => Some (v, more r) | None => None end.
Proof.
  destruct cs1 as [|c r]; [reflexivity|].
  unfold number_int. cbn [more app].
  destruct (byte c =? 48); [reflexivity|].
  destruct (is_digit c); [|reflexivity].
  change (c :: r ++ ","%char :: rest) with (more (c :: r)).
  rewrite read_digits_comma. by destruct (read_digits 0 0 (c :: r)) as [[v n] r'].
Qed.

Lemma number_frac_comma (ip : Z) (cs2 : list ascii) :
  number_frac ip (more cs2)
  = match number_frac ip cs2 with
    | Some (m, flen, r) => Some (m, flen, more r)
    | None => None
    end.
Proof.
  destruct cs2 as [|c r]; [reflexivity|].
  unfold number_frac. cbn [more app].
  destruct (byte c =? 46); [|reflexivity].
  change (r ++ ","%char :: rest) with (more r).
  rewrite read_digits_comma. destruct (read_digits ip 0 r) as [[v n] r'].
  by destruct (n =? 0).
Qed.

Lemma exponent_part_comma (cs : list ascii) :
  exponent_part (more cs)
  = match exponent_part cs with Some (ex, r) => Some (ex, more r) | None => None end.
Proof.
  destruct cs as [|c cs1]; [reflexivity|].
  unfold exponent_part. cbn [more app].
  destruct (Ascii.eqb c "e" || Ascii.eqb c "E")%bool; [|reflexivity].
  destruct cs1 as [|s r]; [reflexivity|]. cbn [app].
  destruct (Ascii.eqb s "-"); [|destruct (Ascii.eqb s "+")].
  - change (r ++ ","%char :: rest) with (more r). rewrite read_digits_comma.
    destruct (read_digits 0 0 r) as [[v n] r']. by destruct (n =? 0).
  - change (r ++ ","%char :: rest) with (more r). rewrite read_digits_comma.
    destruct (read_digits 0 0 r) as [[v n] r']. by destruct (n =? 0).
  - change (s :: r ++ ","%char :: rest) with (more (s :: r)). rewrite read_digits_comma.
    destruct (read_digits 0 0 (s :: r)) as [[v n] r']. by destruct (n =? 0).
Qed.

Lemma number_exp_comma (neg : bool) (m flen : Z) (cs3 : list ascii) :
  number_exp neg m flen (more cs3)
  = match number_exp neg m flen cs3 with
    | Some (x, r) => Some (x, more r)
    | None => None
    end.
Proof.
  destruct cs3 as [|c r]; [reflexivity|].
  unfold number_exp. cbn [more app].
  destruct ((byte c =? 101) || (byte c =? 69)); [|reflexivity].
  change (c :: r ++ ","%char :: rest) with (more (c :: r)).
  rewrite exponent_part_comma. by destruct (exponent_part (c :: r)) as [[ex r']|].
Qed.

(** A number text that is followed by a comma reads as it does alone. *)
Lemma read_number_comma (l : list ascii) (x : number) :
  read_number l = Some (x, []) ->
  read_number (l ++ ","%char :: rest) = Some (x, ","%char :: rest).
Proof.
  rewrite !read_number_stages. fold (more l).
  destruct l as [|c l]; [discriminate|].
  assert (Sign : number_sign (more (c :: l))
                 = (fst (number_sign (c :: l)), more (snd (number_sign (c :: l))))).
  { cbn [more app number_sign]. by destruct (byte c =? 45). }
  rewrite Sign. destruct (number_sign (c :: l)) as [neg cs1]. cbn [fst snd].
  rewrite number_int_comma. destruct (number_int cs1) as [[ip cs2]|]; [|discriminate].
  rewrite number_frac_comma.
  destruct (number_frac ip cs2) as [[[m flen] cs3]|]; [|discriminate].
  rewrite number_exp_comma.
  destruct (number_exp neg m flen cs3) as [[y r]|]; [|discriminate].
  intros [= -> ->]. reflexivity.
Qed.

End Comma.

Lemma is_digit_byte (c : ascii) : is_digit c = true <-> 48 <= byte c <= 57.
Proof.
  unfold is_digit, digit_value, byte.
  destruct (Z.leb_spec 48 (Z.of_N (N_of_ascii c))),
           (Z.leb_spec (Z.of_N (N_of_ascii c)) 57); cbn; split; try lia; congruence.
Qed.

Lemma read_number_first (c : ascii) (l : list ascii) (x : number) (r : list ascii) :
  read_number (c :: l) = Some (x, r) -> byte c = 45 \/ 48 <= byte c <= 57.
Proof.
  rewrite read_number_stages. cbn [number_sign]. intros H.
  destruct (Z.eqb_spec (byte c) 45) as [E|E]; [by left|].
  right. unfold number_int in H.
  destruct (Z.eqb_spec (byte c) 48) as [E0|E0]; [lia|].
  destruct (is_digit c) eqn:D; [by apply is_digit_byte | discriminate].
Qed.

Lemma byte_literal (c : ascii) (k : ascii) :
  byte c <> byte k -> Ascii.eqb k c = false.
Proof. intros H. apply Ascii.eqb_neq. congruence. Qed.

(** A number text that reads back, followed by a comma, is read as that
    number where a value is expected. *)
Lemma read_value_number (f : nat) (l : list ascii) (x : number) (rest : list ascii) :
  read_number l = Some (x, []) ->
  skip_ws (l ++ ","%char :: rest) = l ++ ","%char :: rest
  /\ read_value (S f) (l ++ ","%char :: rest) = Some (JNumber x, ","%char :: rest).
Proof.
  intros H. pose proof (read_number_comma rest l x H) as Hc.
  destruct l as [|c l]; [discriminate|].
  apply read_number_first in H.
  assert (Hn : Ascii.eqb "n" c = false)
    by (apply byte_literal; change (byte "n") with 110; lia).
  assert (Ht : Ascii.eqb "t" c = false)
    by (apply byte_literal; change (byte "t") with 116; lia).
  assert (Hf : Ascii.eqb "f" c = false)
    by (apply byte_literal; change (byte "f") with 102; lia).
  assert (H32 : (byte c =? 32) = false) by (apply Z.eqb_neq; lia).
  assert (H9 : (byte c =? 9) = false) by (apply Z.eqb_neq; lia).
  assert (H10 : (byte c =? 10) = false) by (apply Z.eqb_neq; lia).
  assert (H13 : (byte c =? 13) = false) by (apply Z.eqb_neq; lia).
  assert (H34 : (byte c =? 34) = false) by (apply Z.eqb_neq; lia).
  assert (H91 : (byte c =? 91) = false) by (apply Z.eqb_neq; lia).
  assert (H123 : (byte c =? 123) = false) by (apply Z.eqb_neq; lia).
  cbn [app] in *. split.
  - cbn [skip_ws]. by rewrite H32, H9, H10, H13.
  - cbn [read_value starts_with list_ascii_of_string].
    rewrite Hn, Ht, Hf, H34, H91, H123. cbn [andb]. by rewrite Hc.
Qed.

Lemma read_value_amount (f : nat) (x : number) (rest : list ascii) :
  storable x ->
  skip_ws (list_ascii_of_string (JSON_stringify (JNumber x)) ++ ","%char :: rest)
  = list_ascii_of_string (JSON_stringify (JNumber x)) ++ ","%char :: rest
  /\ read_value (S f) (list_ascii_of_string (JSON_stringify (JNumber x)) ++ ","%char :: rest)
     = Some (stored_amount x, ","%char :: rest).
Proof.
  intros H. destruct x as [s|s| |s m e]; cbn [storable] in H;
    try (split; reflexivity);
    exact (read_value_number f _ _ rest H).
Qed.

Lemma skip_ws_quote (s : string) (rest : list ascii) :
  skip_ws (list_ascii_of_string (quote s) ++ rest)
  = list_ascii_of_string (quote s) ++ rest.
Proof. rewrite chars_quote. reflexivity. Qed.

(** The text of a record, piece by piece. *)
Lemma expense_chars (e : Expense) :
  list_ascii_of_string (JSON_stringify (json_of_expense e))
  = list_ascii_of_string "{"
    ++ list_ascii_of_string (quote "id") ++ list_ascii_of_string ":"
    ++ list_ascii_of_string (quote (id e)) ++ list_ascii_of_string ","
    ++ list_ascii_of_string (quote "amount") ++ list_ascii_of_string ":"
    ++ list_ascii_of_string (JSON_stringify (JNumber (amount e)))
    ++ list_ascii_of_string ","
    ++ list_ascii_of_string (quote "description") ++ list_ascii_of_string ":"
    ++ list_ascii_of_string (quote (description e)) ++ list_ascii_of_string ","
    ++ list_ascii_of_string (quote "category") ++ list_ascii_of_string ":"
    ++ list_ascii_of_string (quote (category e)) ++ list_ascii_of_string ","
    ++ list_ascii_of_string (quote "date") ++ list_ascii_of_string ":"
    ++ list_ascii_of_string (quote (date e)) ++ list_ascii_of_string "}".
Proof.
  unfold json_of_expense.
  change (JSON_stringify (JObject ?ms))
    with ("{" +:+ join "," (map (fun kv => quote (fst kv) +:+ ":" +:+ JSON_stringify (snd kv)) ms)
          +:+ "}").
  cbn [map join fold_left fst snd].
  change (JSON_stringify (JString ?s)) with (quote s).
  rewrite !chars_app, <- !app_assoc. reflexivity.
Qed.

(** *** Objects *)

Lemma read_value_object (f : nat) (k : string) (r : list ascii) :
  read_value (S f) ("{"%char :: list_ascii_of_string (quote k) ++ r)
  = members_loop f f [] (list_ascii_of_string (quote k) ++ r).
Proof. rewrite chars_quote. reflexivity. Qed.

Lemma members_loop_eq (f n : nat) (acc : list (string * json)) (cs1 : list ascii) :
  members_loop f (S n) acc (chr 34 :: cs1)
  = match read_string [] cs1 with
    | Some (k, rest) =>
        match skip_ws rest with
        | col :: rest1 =>
            if byte col =? 58 then
              match read_value f (skip_ws rest1) with
              | Some (v, rest2) =>
                  match skip_ws rest2 with
                  | d :: rest3 =>
                      if byte d =? 44
                      then members_loop f n (set_member k v acc) (skip_ws rest3)
                      else if byte d =? 125
                      then Some (JObject (set_member k v acc), rest3)
                      else None
                  | [] => None
                  end
              | None => None
              end
            else None
        | [] => None
        end
    | None => None
    end.
Proof. reflexivity. Qed.

Lemma read_key (k : string) (rest : list ascii) :
  read_string [] (list_ascii_of_string (quote_chars k) ++ chr 34 :: rest) = Some (k, rest).
Proof.
  rewrite read_quoted. cbn [rev app]. by rewrite string_of_list_ascii_of_string.
Qed.

Section Member.

Variables (f n : nat) (acc : list (string * json)) (k : string).
Variables (val : list ascii) (v : json) (d : ascii) (rest : list ascii).
Hypothesis val_start : skip_ws (val ++ d :: rest) = val ++ d :: rest.
Hypothesis val_read : read_value f (val ++ d :: rest) = Some (v, d :: rest).

Lemma members_step :
  members_loop f (S n) acc
    (list_ascii_of_string (quote k) ++ ":"%char :: val ++ d :: rest)
  = match skip_ws (d :: rest) with
    | d :: rest3 =>
        if byte d =? 44
        then members_loop f n (set_member k v acc) (skip_ws rest3)
        else if byte d =? 125
        then Some (JObject (set_member k v acc), rest3)
        else None
    | [] => None
    end.
Proof.
  rewrite chars_quote. cbn [app]. rewrite <- app_assoc. cbn [app].
  rewrite members_loop_eq, read_key.
  change (skip_ws (":"%char :: val ++ d :: rest)) with (":"%char :: val ++ d :: rest).
  change (byte ":" =? 58) with true. cbv iota.
  by rewrite val_start, val_read.
Qed.

End Member.

Lemma members_step_comma f n acc k val v rest :
  skip_ws (val ++ ","%char :: rest) = val ++ ","%char :: rest ->
  read_value f (val ++ ","%char :: rest) = Some (v, ","%char :: rest) ->
  members_loop f (S n) acc
    (list_ascii_of_string (quote k) ++ ":"%char :: val ++ ","%char :: rest)
  = members_loop f n (set_member k v acc) (skip_ws rest).
Proof. intros H1 H2. by rewrite (members_step f n acc k val v "," rest H1 H2). Qed.

Lemma members_step_close f n acc k val v rest :
  skip_ws (val ++ "}"%char :: rest) = val ++ "}"%char :: rest ->
  read_value f (val ++ "}"%char :: rest) = Some (v, "}"%char :: rest) ->
  members_loop f (S n) acc
    (list_ascii_of_string (quote k) ++ ":"%char :: val ++ "}"%char :: rest)
  = Some (JObject (set_member k v acc), rest).
Proof. intros H1 H2. by rewrite (members_step f n acc k val v "}" rest H1 H2). Qed.

Lemma one_char (a : ascii) (l : list ascii) : [a] ++ l = a :: l.
Proof. reflexivity. Qed.

(** The text of a record reads as the record, with [null] for an amount
    that is not finite. *)
Lemma read_value_expense (f : nat) (e : Expense) (rest : list ascii) :
  storable (amount e) ->
  read_value (S (S (S (S (S (S f))))))
    (list_ascii_of_string (JSON_stringify (json_of_expense e)) ++ rest)
  = Some (stored_json e, rest).
Proof.
  intros Hx. rewrite expense_chars, <- !app_assoc.
  change (list_ascii_of_string "{") with ["{"%char].
  change (list_ascii_of_string "}") with ["}"%char].
  change (list_ascii_of_string ":") with [":"%char].
  change (list_ascii_of_string ",") with [","%char].
  rewrite !one_char.
  rewrite read_value_object.
  destruct (read_value_amount (S (S (S (S f)))) (amount e)
              (list_ascii_of_string (quote "description") ++ ":"%char ::
               list_ascii_of_string (quote (description e)) ++ ","%char ::
               list_ascii_of_string (quote "category") ++ ":"%char ::
               list_ascii_of_string (quote (category e)) ++ ","%char ::
               list_ascii_of_string (quote "date") ++ ":"%char ::
               list_ascii_of_string (quote (date e)) ++ "}"%char :: rest) Hx)
    as [A1 A2].
  rewrite members_step_comma with (v := JString (id e));
    [|apply skip_ws_quote|apply read_value_string].
  rewrite skip_ws_quote.
  rewrite members_step_comma with (v := stored_amount (amount e));
    [|exact A1|exact A2].
  rewrite skip_ws_quote.
  rewrite members_step_comma with (v := JString (description e));
    [|apply skip_ws_quote|apply read_value_string].
  rewrite skip_ws_quote.
  rewrite members_step_comma with (v := JString (category e));
    [|apply skip_ws_quote|apply read_value_string].
  rewrite skip_ws_quote.
  rewrite members_step_close with (v := JString (date e));
    [|apply skip_ws_quote|apply read_value_string].
  reflexivity.
Qed.

(** *** Arrays *)

Lemma elements_loop_eq (f n : nat) (acc : list json) (cs : list ascii) :
  elements_loop f (S n) acc cs
  = match read_value f cs with
    | Some (v, rest) =>
        match skip_ws rest with
        | d :: rest' =>
            if byte d =? 44 then elements_loop f n (v :: acc) (skip_ws rest')
            else if byte d =? 93 then Some (JArray (rev (v :: acc)), rest')
            else None
        | [] => None
        end
    | None => None
    end.
Proof. reflexivity. Qed.

Lemma expense_text_head (e : Expense) :
  exists t, list_ascii_of_string (JSON_stringify (json_of_expense e)) = "{"%char :: t
            /\ (4 <= length t)%nat.
Proof.
  rewrite expense_chars. eexists. split; [reflexivity|].
  set (q := list_ascii_of_string (quote "id")).
  assert (Q : length q = 4%nat) by reflexivity.
  cbn [list_ascii_of_string app]. rewrite length_app. lia.
Qed.

Lemma elements_text_head (e : Expense) (r : list Expense) :
  exists t, elements_text (e :: r) = "{"%char :: t /\ (4 <= length t)%nat.
Proof.
  cbn [elements_text]. destruct (expense_text_head e) as (t & -> & Ht).
  eexists. split; [reflexivity|]. rewrite length_app. lia.
Qed.

Lemma elements_text_length (l : list Expense) :
  (length l <= length (elements_text l))%nat.
Proof.
  induction l as [|e l IH]; [reflexivity|].
  cbn [elements_text]. destruct (expense_text_head e) as (t & -> & _).
  destruct l as [|e' l]; cbn [length] in *; rewrite !length_app; cbn [length] in *; lia.
Qed.

Lemma elements_loop_text (f : nat) (l : list Expense) :
  l <> [] ->
  Forall (fun e => storable (amount e)) l ->
  forall (n : nat) (acc : list json) (rest : list ascii),
    (length l <= n)%nat ->
    elements_loop (S (S (S (S (S (S f)))))) n acc (elements_text l ++ "]"%char :: rest)
    = Some (JArray (rev acc ++ map stored_json l), rest).
Proof.
  induction l as [|e l IH]; [congruence|]. intros _ Hall n acc rest Hn.
  apply Forall_cons in Hall as [He Hall].
  destruct n as [|n]; [cbn in Hn; lia|]. cbn [length] in Hn.
  rewrite elements_loop_eq. cbn [elements_text]. rewrite <- app_assoc.
  rewrite (read_value_expense f e _ He).
  destruct l as [|e' l].
  - reflexivity.
  - rewrite <- app_assoc.
    change (skip_ws (list_ascii_of_string "," ++ elements_text (e' :: l) ++ "]"%char :: rest))
      with (","%char :: elements_text (e' :: l) ++ "]"%char :: rest).
    change (byte "," =? 44) with true. cbv iota.
    destruct (elements_text_head e' l) as (t & Ht & _).
    assert (Sk : skip_ws (elements_text (e' :: l) ++ "]"%char :: rest)
                 = elements_text (e' :: l) ++ "]"%char :: rest)
      by (rewrite Ht; reflexivity).
    rewrite Sk, IH; [|discriminate|exact Hall|lia].
    cbn [rev map]. by rewrite <- app_assoc.
Qed.

Lemma joined_elements (e : Expense) (l : list Expense) :
  list_ascii_of_string
    (JSON_stringify (json_of_expense e)
     +:+ joined_tail "," (map JSON_stringify (map json_of_expense l)))
  = elements_text (e :: l).
Proof.
  revert e. induction l as [|e' l IH]; intros e; rewrite chars_app; cbn [elements_text].
  - reflexivity.
  - f_equal. cbn [map joined_tail]. rewrite chars_app. f_equal. apply IH.
Qed.

(** The text [JSON.stringify] gives for a list of records: the texts of the
    records between brackets, with commas between them. *)
Lemma stringify_expenses (l : list Expense) :
  list_ascii_of_string (JSON_stringify (json_of_expenses l))
  = "["%char :: elements_text l ++ ["]"%char].
Proof.
  unfold json_of_expenses.
  change (JSON_stringify (JArray ?xs))
    with ("[" +:+ join "," (map JSON_stringify xs) +:+ "]").
  rewrite !chars_app. destruct l as [|e l]; [reflexivity|].
  cbn [map]. rewrite join_cons, joined_elements. reflexivity.
Qed.

Lemma read_value_array (f : nat) (t : list ascii) :
  read_value (S f) ("["%char :: "{"%char :: t) = elements_loop f f [] ("{"%char :: t).
Proof. reflexivity. Qed.

(** What was saved parses, as the list of the values the records were saved
    as. *)
Lemma parse_stringify_expenses (l : list Expense) :
  Forall (fun e => storable (amount e)) l ->
  JSON_parse (JSON_stringify (json_of_expenses l)) = Some (JArray (map stored_json l)).
Proof.
  intros Hall. destruct l as [|e l]; [exact parse_no_expenses|].
  unfold JSON_parse. rewrite stringify_expenses.
  change (skip_ws ("["%char :: ?t)) with ("["%char :: t).
  pose proof (elements_text_length (e :: l)) as Hlen.
  destruct (elements_text_head e l) as (t & Ht & Ht4).
  rewrite Ht in *. cbn [app length] in *.
  rewrite read_value_array.
  rewrite length_app. cbn [length].
  destruct (length t) as [|[|[|[|n]]]] eqn:L; try lia.
  replace (S (S (S (S (S (S n))) + 1))) with (S (S (S (S (S (S (S n))))))) by lia.
  change ("{"%char :: t ++ ["]"%char]) with (("{"%char :: t) ++ "]"%char :: []).
  rewrite <- Ht.
  rewrite elements_loop_text; [reflexivity|discriminate|exact Hall|].
  cbn [length]. lia.
Qed.

Lemma expense_of_stored (e : Expense) :
  finite (amount e) -> expense_of_json (stored_json e) = Some e.
Proof. destruct e as [i [s|s| |s m x] d c t]; cbn [finite amount]; by intros H. Qed.

Lemma expense_of_stored_null (e : Expense) :
  ~ finite (amount e) -> expense_of_json (stored_json e) = None.
Proof.
  destruct e as [i [s|s| |s m x] d c t]; cbn [finite amount]; intros H;
    first [reflexivity | by destruct H].
Qed.

Lemma expenses_of_stored (l : list Expense) :
  Forall (fun e => finite (amount e)) l ->
  expenses_of_json (JArray (map stored_json l)) = Some l.
Proof.
  cbn [expenses_of_json]. induction l as [|e l IH]; [reflexivity|].
  intros [He Hl]%Forall_cons. cbn [map expenses_of_elements].
  by rewrite (expense_of_stored e He), (IH Hl).
Qed.

Lemma expenses_of_stored_null (l : list Expense) :
  Exists (fun e => ~ finite (amount e)) l ->
  expenses_of_json (JArray (map stored_json l)) = None.
Proof.
  cbn [expenses_of_json]. induction l as [|e l IH]; intros H.
  - by apply Exists_nil in H.
  - cbn [map expenses_of_elements]. apply Exists_cons in H as [H|H].
    + by rewrite (expense_of_stored_null e H).
    + rewrite (IH H). by destruct (expense_of_json (stored_json e)).
Qed.

Lemma reads_back_storable (x : number) : reads_back x -> storable x /\ finite x.
Proof.
  destruct x as [s|s| |s m e]; cbn [storable finite]; intros H; try done.
  destruct s; by vm_compute in H.
Qed.

Lemma stored_text_truthy (l : list Expense) :
  truthy (JSON_stringify (json_of_expenses l)) = true.
Proof.
  destruct (JSON_stringify (json_of_expenses l)) eqn:E; [|reflexivity].
  pose proof (stringify_expenses l) as H. rewrite E in H. discriminate H.
Qed.

(** *** The next session *)

(** The load effect on a storage that holds the text of a list. *)
Lemma load_stored (storage : gmap string string) (l : list Expense) :
  storage !! "expenses" = Some (JSON_stringify (json_of_expenses l)) ->
  Forall (fun e => storable (amount e)) l ->
  load_effect (initial storage)
  = match expenses_of_json (JArray (map stored_json l)) with
    | Some l' => Running (setExpenses l' (initial storage))
    | None => IllTyped (JArray (map stored_json l))
    end.
Proof.
  intros Hk Hall. unfold load_effect, localStorage_getItem.
  cbn [initial localStorage]. rewrite Hk, stored_text_truthy.
  by rewrite (parse_stringify_expenses l Hall).
Qed.

(** A session that starts on the text of a list whose amounts read back
    shows that list again, and leaves the storage as it found it: the first
    save, of the empty list, is overwritten by the save of what was
    loaded. *)
Theorem reload_restores (storage : gmap string string) (l : list Expense) :
  storage !! "expenses" = Some (JSON_stringify (json_of_expenses l)) ->
  Forall (fun e => reads_back (amount e)) l ->
  exists w, mount storage = Running w
            /\ Snapshot w = l
            /\ localStorage w = storage
            /\ toasts w = [] /\ files w = [].
Proof.
  intros Hk Hall.
  assert (Hs : Forall (fun e => storable (amount e)) l)
    by (eapply Forall_impl; [exact Hall|]; intros e H; by apply reads_back_storable).
  assert (Hf : Forall (fun e => finite (amount e)) l)
    by (eapply Forall_impl; [exact Hall|]; intros e H; by apply reads_back_storable).
  unfold mount. rewrite (load_stored storage l Hk Hs), (expenses_of_stored l Hf).
  eexists. split; [reflexivity|].
  split; [reflexivity|]. split; [|split; reflexivity].
  cbn [render save_effect localStorage_setItem setExpenses initial expenses_set
       localStorage state expenses].
  rewrite insert_insert_eq. by apply insert_id.
Qed.

Lemma reload_restores_witness :
  exists w, mount (localStorage two_records) = Running w
            /\ Snapshot w = bus_and_coffee
            /\ localStorage w = localStorage two_records
            /\ toasts w = [] /\ files w = [].
Proof.
  apply (reload_restores (localStorage two_records) bus_and_coffee).
  - vm_compute. reflexivity.
  - repeat (apply Forall_cons_2; [vm_compute; reflexivity|]). apply Forall_nil_2.
Defined.

(** A list with an amount that is NaN or infinite does not come back: its
    text has [null] in the place of that amount, and what the next session
    parses is not a list of expense records. *)
Theorem reload_loses_NaN (storage : gmap string string) (l : list Expense) :
  storage !! "expenses" = Some (JSON_stringify (json_of_expenses l)) ->
  Forall (fun e => storable (amount e)) l ->
  Exists (fun e => ~ finite (amount e)) l ->
  mount storage = IllTyped (JArray (map stored_json l)).
Proof.
  intros Hk Hs Hn. unfold mount.
  by rewrite (load_stored storage l Hk Hs), (expenses_of_stored_null l Hn).
Qed.

Lemma reload_loses_NaN_witness :
  mount {[ "expenses" := JSON_stringify (json_of_expenses bus_beyond_range) ]}
  = IllTyped (JArray (map stored_json bus_beyond_range)).
Proof.
  apply (reload_loses_NaN
           {[ "expenses" := JSON_stringify (json_of_expenses bus_beyond_range) ]}
           bus_beyond_range).
  - vm_compute. reflexivity.
  - repeat (apply Forall_cons_2; [vm_compute; first [reflexivity | exact I]|]).
    apply Forall_nil_2.
  - apply Exists_cons_hd. intros [].
Defined.

(** How such a list comes about: a session that starts on a text with the
    amount [1e400] runs with the amount Infinity, and stores its list with
    [null] for it. *)
Example session_beyond_range :
  exists w, mount {[ "expenses" := overflowing_text ]} = Running w
            /\ Snapshot w = bus_beyond_range
            /\ localStorage w
               = {[ "expenses" := JSON_stringify (json_of_expenses bus_beyond_range) ]}.
Proof. eexists. vm_compute. repeat split; reflexivity. Qed.
